(** * IdentityClient: verification of Backstage identity tokens

    A shallow embedding of [IdentityClient]
    (plugins/auth-backend, class [IdentityClient]) and of the
    [authMiddleware] of [packages/backend/src/index.ts].

    Conventions.
    - A JavaScript string is a Rocq [string]; each [ascii] is one code
      unit below 256 (Latin-1, which is how Node hands over the value of
      an HTTP header).
    - A JavaScript [number] is a rational [Q]; the rounding of IEEE
      doubles is not modelled.
    - [async] functions are run to completion: a rejected promise and a
      thrown exception are both the [inl] of a result.  Assignments to
      [this] made before a throw are kept, as in JavaScript.
    - The [jose] library, [fetch], the discovery service and the clock
      are not part of the class; they are parameters ([Jose], [Runtime]). *)

From Stdlib Require Import String Ascii List Bool ZArith QArith Lia.
From Stdlib Require Import DecimalString.
Import ListNotations.

Local Open Scope string_scope.
Local Open Scope Z_scope.

(** ** JavaScript values *)

(** The values that can reach this code: what [JSON.parse] produces, plus
    [undefined].  An object keeps its members in source order. *)
#[local] Unset Elimination Schemes.
Inductive value : Type :=
| VUndefined
| VNull
| VBool (b : bool)
| VNumber (q : Q)
| VString (s : string)
| VArray (items : list value)
| VObject (members : list (string * value)).
#[local] Set Elimination Schemes.

(** [typeof v === 'string'] *)
Definition is_string (v : value) : option string :=
  match v with
  | VString s => Some s
  | _ => None
  end.

(** Own property of a parsed object; a later duplicate member wins, as in
    [JSON.parse]. *)
Fixpoint member (name : string) (members : list (string * value)) : option value :=
  match members with
  | [] => None
  | (k, v) :: rest =>
      match member name rest with
      | Some v' => Some v'
      | None => if String.eqb k name then Some v else None
      end
  end.

(** ** Strings and the bearer pattern *)

Module Pattern.

(** [\s] restricted to code units below 256:
    TAB, LF, VT, FF, CR, SPACE and NO-BREAK SPACE. *)
Definition is_space (c : ascii) : bool :=
  let n := nat_of_ascii c in
  (Nat.eqb n 9 || Nat.eqb n 10 || Nat.eqb n 11 || Nat.eqb n 12
   || Nat.eqb n 13 || Nat.eqb n 32 || Nat.eqb n 160)%bool.

(** [\S] *)
Definition is_nonspace (c : ascii) : bool := negb (is_space c).

(** Canonicalisation of the [i] flag on ASCII letters.  A code unit of
    128 or more never canonicalises to an ASCII letter, so leaving it
    alone does not change which code units match a letter of
    [Bearer]. *)
Definition canonicalize (c : ascii) : ascii :=
  let n := nat_of_ascii c in
  if (Nat.leb 97 n && Nat.leb n 122)%bool then ascii_of_nat (n - 32) else c.

Definition eqb_ci (a b : ascii) : bool :=
  Ascii.eqb (canonicalize a) (canonicalize b).

(** A literal under the [i] flag at the start of [s]: the rest of [s]
    after it. *)
Fixpoint literal_ci (lit s : string) : option string :=
  match lit with
  | EmptyString => Some s
  | String p lit' =>
      match s with
      | EmptyString => None
      | String c s' => if eqb_ci p c then literal_ci lit' s' else None
      end
  end.

(** The longest prefix of [s] whose code units satisfy [p], and the
    rest: what a greedy [x+] or [x*] over a character class consumes. *)
Fixpoint span (p : ascii -> bool) (s : string) : string * string :=
  match s with
  | EmptyString => (EmptyString, EmptyString)
  | String c s' =>
      if p c then let (run, rest) := span p s' in (String c run, rest)
      else (EmptyString, s)
  end.

(** [Bearer\s+(\S+)] with flag [i], tried at the start of [s]; the
    result is capture group 1.  [\s+] is greedy and takes the whole
    run of white space; giving some of it back cannot help, because
    [\S] would then face a white-space code unit. *)
Definition match_here (s : string) : option string :=
  match literal_ci "Bearer" s with
  | None => None
  | Some r =>
      match span is_space r with
      | (EmptyString, _) => None
      | (_, r1) =>
          match span is_nonspace r1 with
          | (EmptyString, _) => None
          | (tok, _) => Some tok
          end
      end
  end.

(** [String.prototype.match] with a pattern that is not anchored and
    has no [g] flag: the match at the leftmost position where one
    exists. *)
Fixpoint search (s : string) : option string :=
  match match_here s with
  | Some tok => Some tok
  | None =>
      match s with
      | EmptyString => None
      | String _ s' => search s'
      end
  end.

End Pattern.

(** [IdentityClient.getBearerToken] *)
Definition getBearerToken (authorizationHeader : value) : option string :=
  match is_string authorizationHeader with
  | None => None
  | Some s => Pattern.search s
  end.

(** ** Collaborators *)

(** The unverified contents of a token, as [JWT.decode(_, {complete: true})]
    returns them and as the code reads them. *)
Record Header := {
  kid : option string;     (* [None]: the header has no [kid] *)
  alg : string
}.

Record Payload := {
  sub : string;
  iat : option Q;          (* [None]: the claim is absent *)
  aud : list string;       (* a single audience is a one-element list *)
  iss : option string;
  exp : option Q
}.

Record DecodedToken := { header : Header; payload : Payload }.

(** The third argument of [JWT.IdToken.verify]. *)
Record VerifyOptions := {
  algorithms : list string;
  audience : string;
  issuer_opt : string
}.

(** What the class uses of [jose].  [None] stands for a throw.  [verify]
    receives the clock reading it takes to check [exp] and [nbf]. *)
Record Jose := {
  Key : Type;
  key_kid : Key -> string;
  JWT_decode : string -> option DecodedToken;
  JWT_IdToken_verify : string -> Key -> VerifyOptions -> Z -> option Payload;
  JWK_asKey : value -> option Key
}.

(** The response object of [fetch]. *)
Record Response := { status : Z; statusText : string; body : string }.

(** The calls the class makes to its collaborators, with their results. *)
Inductive Event : Type :=
| KeyStoreGet (k : option string) (found : bool)
| DateNow (ms : Z)
| GetBaseUrl (pluginId : string) (result : option string)
| Fetch (url : string) (result : option Response).

(** The calls made so far, the latest first. *)
Definition Trace := list Event.

(** The outside world.  Each answer may depend on everything that
    happened before; [None] stands for a rejected promise. *)
Record Runtime := {
  Date_now : Trace -> Z;
  discovery_getBaseUrl : Trace -> string -> option string;
  fetch : Trace -> string -> option Response;
  JSON_parse : string -> option value
}.

Definition is_fetch (ev : Event) : bool :=
  match ev with
  | Fetch _ _ => true
  | _ => false
  end.

Definition is_lookup (ev : Event) : bool :=
  match ev with
  | KeyStoreGet _ _ => true
  | _ => false
  end.

(** Number of HTTP requests in a trace. *)
Definition fetch_calls (t : Trace) : nat := length (filter is_fetch t).

(** Number of key-store lookups in a trace. *)
Definition lookups (t : Trace) : nat := length (filter is_lookup t).

(** ** Exceptions *)

Inductive exn : Type :=
| Error (message : string)     (* [new Error(message)], thrown by the class *)
| TypeError                    (* member access or call on the wrong kind of value *)
| SyntaxError                  (* [response.json()] on a body that is not JSON *)
| JoseDecodeError              (* thrown by [JWT.decode] *)
| JoseVerifyError              (* thrown by [JWT.IdToken.verify] *)
| JoseKeyError                 (* thrown by [JWK.asKey] *)
| DiscoveryError               (* [discovery.getBaseUrl] rejected *)
| NetworkError.                (* [fetch] rejected *)

(** The failure classes of the specification. *)
Definition MissingToken : exn := Error "No bearer token found in authorization header".
Definition UnknownKey : exn := Error "No signing key matching token found".
Definition MalformedToken : exn := JoseDecodeError.
Definition InvalidToken : exn := JoseVerifyError.

(** [Response.ok]: the status is in the range 200 to 299. *)
Definition response_ok (r : Response) : bool :=
  (200 <=? status r) && (status r <=? 299).

(** A number in a template literal. *)
Definition show_Z (z : Z) : string := NilZero.string_of_int (Z.to_int z).

(** [`Request failed with ${response.status} ${response.statusText}, ${payload}`] *)
Definition request_failed_message (r : Response) (payload : string) : string :=
  "Request failed with " ++ show_Z (status r) ++ " " ++ statusText r ++ ", " ++ payload.

(** [publicKeys.keys] when it is an array; [None] when the following
    [.map(...)] throws a [TypeError]: [publicKeys] is [null], or its
    [keys] is missing or is not an array. *)
Definition keys_array (publicKeys : value) : option (list value) :=
  match publicKeys with
  | VObject members =>
      match member "keys" members with
      | Some (VArray items) => Some items
      | _ => None
      end
  | _ => None
  end.

(** [number] truthiness: everything but zero. *)
Definition truthy (q : Q) : bool := negb (Qeq_bool q 0).

(** [a > b] on numbers. *)
Definition Qgtb (a b : Q) : bool := negb (Qle_bool a b).

(** [Date.now() / 1000] *)
Definition seconds (ms : Z) : Q := (inject_Z ms / 1000)%Q.

Definition is_some {A} (o : option A) : bool :=
  match o with
  | Some _ => true
  | None => false
  end.

(** The segments of a compact token: the pieces between the dots. *)
Fixpoint segments (s : string) : list string :=
  match s with
  | EmptyString => [EmptyString]
  | String c s' =>
      if Ascii.eqb c "."%char then EmptyString :: segments s'
      else
        match segments s' with
        | [] => [String c EmptyString]
        | seg :: segs => String c seg :: segs
        end
  end.

(** Modelled from the spec: [jose] is an imported library, so what the
    class relies on is stated as a contract.  A token that decodes has
    three segments (section 6); verification returns the claims of the
    token it was given, accepts only an algorithm of the list it was
    given, and requires the expected audience and issuer (section 4.4,
    step 4). *)
Record JoseContract (J : Jose) : Prop := {
  decode_segments :
    forall tok d, JWT_decode J tok = Some d -> length (segments tok) = 3%nat;
  verify_decoded :
    forall tok key o clock p,
      JWT_IdToken_verify J tok key o clock = Some p ->
      exists d, JWT_decode J tok = Some d /\ payload d = p
                /\ In (alg (header d)) (algorithms o);
  verify_audience :
    forall tok key o clock p,
      JWT_IdToken_verify J tok key o clock = Some p -> In (audience o) (aud p);
  verify_issuer :
    forall tok key o clock p,
      JWT_IdToken_verify J tok key o clock = Some p -> iss p = Some (issuer_opt o)
}.

(** ** The class *)

(** [BackstageIdentity] *)
Record BackstageIdentity := { id : string; idToken : string }.

(** What [authMiddleware] does with a request. *)
Inductive Handled : Type :=
| Next (user : BackstageIdentity)                 (* [req.user = ...; next()] *)
| Send (code : Z) (text : string).                (* [res.status(code).send(text)] *)

Section Client.

Context (J : Jose) (R : Runtime).

(** [JWKS.KeyStore]: the keys in the order given to the constructor. *)
Definition KeyStore := list (Key J).

(** The fields of an [IdentityClient] other than [discovery], which is
    part of the [Runtime]. *)
Record IdentityClient := {
  issuer : string;
  keyStore : KeyStore;
  keyStoreUpdated : Q
}.

(** The constructor. *)
Definition new_IdentityClient (issuer0 : string) : IdentityClient :=
  {| issuer := issuer0; keyStore := []; keyStoreUpdated := 0%Q |}.

(** Modelled from the spec: [keyStore.get({ kid })] of [jose], the
    lookup of section 4.3.  The keys are filtered on the [kid] asked for
    and the first one left, in the order of the store, is returned; with
    [kid] undefined nothing is filtered out, so the first key of the
    store is returned. *)
Definition KeyStore_get (store : KeyStore) (k : option string) : option (Key J) :=
  find (fun key =>
          match k with
          | Some wanted => String.eqb (key_kid J key) wanted
          | None => true
          end) store.

(** *** Computations

    A computation runs from an object state and a trace to a result, a
    new object state and a longer trace.  A throw keeps the state
    reached so far. *)
Record Machine := { self : IdentityClient; trace : Trace }.

Definition M (A : Type) : Type := Machine -> (exn + A) * Machine.

Definition ret {A} (a : A) : M A := fun m => (inr a, m).

Definition throw {A} (e : exn) : M A := fun m => (inl e, m).

Definition bind {A B} (c : M A) (k : A -> M B) : M B :=
  fun m =>
    match c m with
    | (inl e, m') => (inl e, m')
    | (inr a, m') => k a m'
    end.

Notation "x <- c ;; k" := (bind c (fun x => k))
  (at level 100, c at next level, right associativity).
Notation "c ;;; k" := (bind c (fun _ => k))
  (at level 100, right associativity).

Definition this : M IdentityClient := fun m => (inr (self m), m).

Definition history : M Trace := fun m => (inr (trace m), m).

(** The machine after one more call to a collaborator. *)
Definition logged (ev : Event) (m : Machine) : Machine :=
  {| self := self m; trace := ev :: trace m |}.

Definition emit (ev : Event) : M unit :=
  fun m => (inr tt, logged ev m).

Definition set_keyStore (store : KeyStore) : M unit :=
  fun m =>
    (inr tt,
     {| self := {| issuer := issuer (self m);
                   keyStore := store;
                   keyStoreUpdated := keyStoreUpdated (self m) |};
        trace := trace m |}).

Definition set_keyStoreUpdated (t : Q) : M unit :=
  fun m =>
    (inr tt,
     {| self := {| issuer := issuer (self m);
                   keyStore := keyStore (self m);
                   keyStoreUpdated := t |};
        trace := trace m |}).

(** A library call that may throw. *)
Definition try {A} (r : option A) (e : exn) : M A :=
  match r with
  | Some a => ret a
  | None => throw e
  end.

(** *** Calls to collaborators *)

Definition keyStore_get (k : option string) : M (option (Key J)) :=
  c <- this ;;
  let r := KeyStore_get (keyStore c) k in
  emit (KeyStoreGet k (is_some r)) ;;;
  ret r.

Definition date_now : M Z :=
  h <- history ;;
  let ms := Date_now R h in
  emit (DateNow ms) ;;;
  ret ms.

Definition getBaseUrl (pluginId : string) : M string :=
  h <- history ;;
  let r := discovery_getBaseUrl R h pluginId in
  emit (GetBaseUrl pluginId r) ;;;
  try r DiscoveryError.

Definition http_get (url : string) : M Response :=
  h <- history ;;
  let r := fetch R h url in
  emit (Fetch url r) ;;;
  try r NetworkError.

(** *** Methods *)

(** [listPublicKeys] *)
Definition listPublicKeys : M value :=
  base <- getBaseUrl "auth" ;;
  let url := base ++ "/.well-known/jwks.json" in
  response <- http_get url ;;
  if negb (response_ok response) then
    let payload := body response in
    throw (Error (request_failed_message response payload))
  else
    try (JSON_parse R (body response)) SyntaxError.

(** [publicKeys.keys.map(key => JWK.asKey(key))]: the first record that
    [JWK.asKey] refuses ends the loop with its throw. *)
Fixpoint map_asKey (items : list value) : option (list (Key J)) :=
  match items with
  | [] => Some []
  | item :: rest =>
      match JWK_asKey J item with
      | None => None
      | Some key =>
          match map_asKey rest with
          | None => None
          | Some keys => Some (key :: keys)
          end
      end
  end.

(** [refreshKeyStore] *)
Definition refreshKeyStore : M unit :=
  ms <- date_now ;;
  let now := seconds ms in
  publicKeys <- listPublicKeys ;;
  items <- try (keys_array publicKeys) TypeError ;;
  keys <- try (map_asKey items) JoseKeyError ;;
  set_keyStore keys ;;;
  set_keyStoreUpdated now.

(** The test [payload?.iat && payload.iat > this.keyStoreUpdated]. *)
Definition issued_after (p : Payload) (updated : Q) : bool :=
  match iat p with
  | None => false
  | Some i => truthy i && Qgtb i updated
  end.

(** [getKey] *)
Definition getKey (rawJwtToken : string) : M (option (Key J)) :=
  decoded <- try (JWT_decode J rawJwtToken) JoseDecodeError ;;
  let k := kid (header decoded) in
  found <- keyStore_get k ;;
  c <- this ;;
  (match found with
   | Some _ => ret tt
   | None =>
       if issued_after (payload decoded) (keyStoreUpdated c)
       then refreshKeyStore
       else ret tt
   end) ;;;
  keyStore_get k.

(** The options [authenticate] passes to [JWT.IdToken.verify]. *)
Definition verify_options (c : IdentityClient) : VerifyOptions :=
  {| algorithms := ["ES256"]; audience := "backstage"; issuer_opt := issuer c |}.

(** [authenticate].  [!token] holds for [null] and for the empty
    string. *)
Definition authenticate (authorizationHeader : value) : M BackstageIdentity :=
  match getBearerToken authorizationHeader with
  | None | Some EmptyString =>
      throw (Error "No bearer token found in authorization header")
  | Some token =>
      key <- getKey token ;;
      match key with
      | None => throw (Error "No signing key matching token found")
      | Some key =>
          c <- this ;;
          clock <- date_now ;;
          decoded <- try (JWT_IdToken_verify J token key (verify_options c) clock)
                         JoseVerifyError ;;
          ret {| id := sub decoded; idToken := token |}
      end
  end.

(** [authMiddleware] of the backend: the [catch] takes every error. *)
Definition authMiddleware (authorization : value) : M Handled :=
  fun m =>
    match authenticate authorization m with
    | (inr user, m') => (inr (Next user), m')
    | (inl _, m') => (inr (Send 401 "Unauthorized"), m')
    end.

(** *** Outcomes, for the statements below *)

(** The last step of [authenticate], from the point where the key is
    in hand: one reading of the clock, then the verdict of
    [JWT.IdToken.verify]. *)
Definition verification (token : string) (key : Key J) (m : Machine)
    : (exn + BackstageIdentity) * Machine :=
  let clock := Date_now R (trace m) in
  (match JWT_IdToken_verify J token key (verify_options (self m)) clock with
   | Some decoded => inr {| id := sub decoded; idToken := token |}
   | None => inl InvalidToken
   end,
   logged (DateNow clock) m).

(** The machine after the two lookups of a [getKey] that does not
    refresh. *)
Definition after_lookups (k : option string) (found : bool) (m : Machine) : Machine :=
  logged (KeyStoreGet k found) (logged (KeyStoreGet k found) m).

(** A refresh that throws [e] and leaves the fields of the object as
    they were. *)
Definition refresh_fails (e : exn) (m : Machine) : Prop :=
  exists m', refreshKeyStore m = (inl e, m') /\ self m' = self m.

End Client.

(** [needle] occurs in [hay]. *)
Definition Substring (needle hay : string) : Prop :=
  exists pre post, hay = pre ++ needle ++ post.

Arguments issuer {J} _.
Arguments keyStore {J} _.
Arguments keyStoreUpdated {J} _.
Arguments self {J} _.
Arguments trace {J} _.
Arguments Build_Machine {J} _ _.
Arguments Build_IdentityClient {J} _ _ _.
Arguments logged {J} _ _.

(** ** The header forms of the specification *)

Fixpoint all_of (p : ascii -> bool) (s : string) : bool :=
  match s with
  | EmptyString => true
  | String c s' => p c && all_of p s'
  end.

(** [r] is empty or begins with a code unit that does not satisfy [p]. *)
Definition stops (p : ascii -> bool) (r : string) : Prop :=
  match r with
  | EmptyString => True
  | String c _ => p c = false
  end.

(** Somewhere in [s] stands [Bearer] in any letter case, then a run of
    white space, then a code unit that is not white space. *)
Definition contains_bearer (s : string) : Prop :=
  exists pre b ws c rest,
    s = pre ++ b ++ ws ++ String c rest
    /\ Pattern.literal_ci "Bearer" b = Some EmptyString
    /\ ws <> EmptyString
    /\ all_of Pattern.is_space ws = true
    /\ Pattern.is_space c = false.

(** The form [Bearer <token>] as the specification words it: the header
    is a string that begins with the scheme name [Bearer] in any letter
    case, followed by a separating white-space run and a token. *)
Definition bearer_form (authorizationHeader : value) : bool :=
  match is_string authorizationHeader with
  | Some s => is_some (Pattern.match_here s)
  | None => false
  end.

(** The scheme name of a header: its first word. *)
Definition scheme_name (s : string) : string :=
  fst (Pattern.span Pattern.is_nonspace s).

(** [b] is the word [Bearer] with each letter in upper or in lower case. *)
Definition spelled_bearer (b : string) : Prop :=
  exists c1 c2 c3 c4 c5 c6,
    b = String c1 (String c2 (String c3 (String c4 (String c5 (String c6 "")))))
    /\ (c1 = "B" \/ c1 = "b")%char
    /\ (c2 = "E" \/ c2 = "e")%char
    /\ (c3 = "A" \/ c3 = "a")%char
    /\ (c4 = "R" \/ c4 = "r")%char
    /\ (c5 = "E" \/ c5 = "e")%char
    /\ (c6 = "R" \/ c6 = "r")%char.

Definition is_discovery (ev : Event) : bool :=
  match ev with
  | GetBaseUrl _ _ => true
  | _ => false
  end.

(** Number of calls to the discovery service in a trace. *)
Definition discovery_calls (t : Trace) : nat := length (filter is_discovery t).

(** ** A small world to run the class in

    A stand-in for [jose] and for the network, in the manner of a unit
    test.  A token is [kid.name.secret]; a key is a [kid] with a secret,
    and a signature is good when the token carries the secret of the key.
    A token whose first segment is empty has no [kid]. *)
Module Toy.

Definition issuer_url : string := "http://localhost:7000/api/auth".

Definition claims_of (name : string) (i : option Q) (a : string) : Payload :=
  {| sub := name; iat := i; aud := [a]; iss := Some issuer_url; exp := Some 2000%Q |}.

(** The users of this world and what their tokens claim. *)
Definition claims (name : string) : option Payload :=
  if String.eqb name "alice" then Some (claims_of name (Some 1500%Q) "backstage")
  else if String.eqb name "bob" then Some (claims_of name (Some 0%Q) "backstage")
  else if String.eqb name "carol" then Some (claims_of name None "backstage")
  else if String.eqb name "dave" then Some (claims_of name (Some 1500%Q) "other")
  else if String.eqb name "erin" then Some (claims_of name (Some 900%Q) "backstage")
  else None.

Definition kid_of (k : string) : option string :=
  if String.eqb k "" then None else Some k.

Definition decoded (k name : string) (i : option Q) (a : string) : DecodedToken :=
  {| header := {| kid := kid_of k; alg := "ES256" |}; payload := claims_of name i a |}.

Definition decode (tok : string) : option DecodedToken :=
  match segments tok with
  | [k; name; _] =>
      match claims name with
      | Some p => Some {| header := {| kid := kid_of k; alg := "ES256" |}; payload := p |}
      | None => None
      end
  | _ => None
  end.

Definition signed_with (tok : string) (key : string * string) : bool :=
  match segments tok with
  | [k; _; secret] =>
      (String.eqb k "" || String.eqb k (fst key)) && String.eqb secret (snd key)
  | _ => false
  end.

Definition not_expired (p : Payload) (clock : Z) : bool :=
  match exp p with
  | None => true
  | Some e => Qle_bool (seconds clock) e
  end.

Definition verify (tok : string) (key : string * string) (o : VerifyOptions)
    (clock : Z) : option Payload :=
  match decode tok with
  | None => None
  | Some d =>
      let p := payload d in
      if existsb (String.eqb (alg (header d))) (algorithms o)
         && signed_with tok key
         && existsb (String.eqb (audience o)) (aud p)
         && match iss p with
            | Some i => String.eqb i (issuer_opt o)
            | None => false
            end
         && not_expired p clock
      then Some p
      else None
  end.

Definition asKey (v : value) : option (string * string) :=
  match v with
  | VObject members =>
      match member "kid" members, member "x" members with
      | Some (VString k), Some (VString x) => Some (k, x)
      | _, _ => None
      end
  | _ => None
  end.

Definition jose : Jose :=
  {| Key := string * string;
     key_kid := fst;
     JWT_decode := decode;
     JWT_IdToken_verify := verify;
     JWK_asKey := asKey |}.

Definition jwk (k x : string) : value :=
  VObject [("kty", VString "EC"); ("kid", VString k); ("x", VString x)].

(** Bodies the issuer may answer with. *)
Definition parse (text : string) : option value :=
  if String.eqb text "one-key"
  then Some (VObject [("keys", VArray [jwk "k1" "s1"])])
  else if String.eqb text "other-key"
  then Some (VObject [("keys", VArray [jwk "k2" "s2"])])
  else if String.eqb text "bad-record"
  then Some (VObject [("keys", VArray [jwk "k1" "s1"; VObject [("kty", VString "EC")]])])
  else if String.eqb text "no-keys"
  then Some (VObject [("jwks", VArray [])])
  else None.

(** A world in which the clock advances one second per call, discovery
    answers, and every request gets the answer [answer]. *)
Definition runtime (answer : option Response) : Runtime :=
  {| Date_now := fun h => 1000000 + 1000 * Z.of_nat (length h);
     discovery_getBaseUrl := fun _ _ => Some issuer_url;
     fetch := fun _ _ => answer;
     JSON_parse := parse |}.

Definition ok_with (text : string) : option Response :=
  Some {| status := 200; statusText := "OK"; body := text |}.

(** A client that has just been constructed. *)
Definition fresh : Machine jose :=
  {| self := new_IdentityClient jose issuer_url; trace := [] |}.

(** A client that fetched key [k1] at second 1000. *)
Definition warm : Machine jose :=
  {| self := Build_IdentityClient (J := jose) issuer_url [("k1", "s1")] 1000%Q;
     trace := [] |}.

(** A world in which discovery does not answer. *)
Definition offline : Runtime :=
  {| Date_now := fun h => 1000000 + 1000 * Z.of_nat (length h);
     discovery_getBaseUrl := fun _ _ => None;
     fetch := fun _ _ => ok_with "one-key";
     JSON_parse := parse |}.

End Toy.

Example toy_hit :
  fst (authenticate Toy.jose (Toy.runtime None) (VString "Bearer k1.alice.s1") Toy.warm)
  = inr {| id := "alice"; idToken := "k1.alice.s1" |}.
Proof. reflexivity. Qed.

Example toy_refresh :
  fst (authenticate Toy.jose (Toy.runtime (Toy.ok_with "one-key"))
         (VString "Bearer k1.alice.s1") Toy.fresh)
  = inr {| id := "alice"; idToken := "k1.alice.s1" |}.
Proof. reflexivity. Qed.

Example toy_refresh_trace :
  trace (snd (authenticate Toy.jose (Toy.runtime (Toy.ok_with "one-key"))
                (VString "Bearer k1.alice.s1") Toy.fresh))
  = [ DateNow 1005000;
      KeyStoreGet (Some "k1") true;
      Fetch "http://localhost:7000/api/auth/.well-known/jwks.json" (Toy.ok_with "one-key");
      GetBaseUrl "auth" (Some "http://localhost:7000/api/auth");
      DateNow 1001000;
      KeyStoreGet (Some "k1") false ].
Proof. reflexivity. Qed.

Example toy_no_kid :
  fst (authenticate Toy.jose (Toy.runtime None) (VString "Bearer .alice.s1") Toy.warm)
  = inr {| id := "alice"; idToken := ".alice.s1" |}
  /\ trace (snd (authenticate Toy.jose (Toy.runtime None)
                   (VString "Bearer .alice.s1") Toy.warm))
     = [DateNow 1002000; KeyStoreGet None true; KeyStoreGet None true].
Proof. split; reflexivity. Qed.

Example toy_bad_signature :
  fst (authenticate Toy.jose (Toy.runtime None) (VString "Bearer k1.alice.forged") Toy.warm)
  = inl InvalidToken.
Proof. reflexivity. Qed.

(** ** The bearer pattern *)

Example getBearerToken_plain :
  getBearerToken (VString "Bearer abc.def.ghi") = Some "abc.def.ghi".
Proof. reflexivity. Qed.

Example getBearerToken_lowercase :
  getBearerToken (VString "bEARER   tok rest") = Some "tok".
Proof. reflexivity. Qed.

Example getBearerToken_basic :
  getBearerToken (VString "Basic dXNlcjpwdw==") = None.
Proof. reflexivity. Qed.

Example getBearerToken_no_token :
  getBearerToken (VString "Bearer   ") = None.
Proof. reflexivity. Qed.

Example getBearerToken_inner :
  getBearerToken (VString "Basic Bearer abc") = Some "abc".
Proof. reflexivity. Qed.

Module PatternFacts.
Import Pattern.

Lemma span_spec p s run rest :
  span p s = (run, rest) ->
  s = run ++ rest /\ all_of p run = true /\ stops p rest.
Proof.
  revert run rest. induction s as [|c s IH]; simpl; intros run rest H.
  - inversion H; subst. simpl. auto.
  - destruct (p c) eqn:Hc.
    + destruct (span p s) as [run' rest'] eqn:Hs.
      inversion H; subst. destruct (IH _ _ eq_refl) as (E & A & S).
      simpl. rewrite Hc, A. split; [congruence | auto].
    + inversion H; subst. simpl. auto.
Qed.

Lemma span_app p run rest :
  all_of p run = true -> stops p rest -> span p (run ++ rest) = (run, rest).
Proof.
  induction run as [|c run IH]; simpl; intros A S.
  - destruct rest as [|c r]; simpl in *; [reflexivity | now rewrite S].
  - apply andb_true_iff in A. destruct A as [Hc A].
    rewrite Hc, (IH A S). reflexivity.
Qed.

Lemma literal_ci_split lit s r :
  literal_ci lit s = Some r ->
  exists b, s = b ++ r /\ literal_ci lit b = Some EmptyString.
Proof.
  revert s. induction lit as [|p lit IH]; simpl; intros s H.
  - exists EmptyString. inversion H. auto.
  - destruct s as [|c s]; [discriminate|].
    destruct (eqb_ci p c) eqn:E; [|discriminate].
    destruct (IH _ H) as (b & -> & Hb).
    exists (String c b). simpl. now rewrite E.
Qed.

Lemma literal_ci_app lit b r :
  literal_ci lit b = Some EmptyString -> literal_ci lit (b ++ r) = Some r.
Proof.
  revert b. induction lit as [|p lit IH]; simpl; intros b H.
  - inversion H. reflexivity.
  - destruct b as [|c b]; [discriminate|]. simpl.
    destruct (eqb_ci p c); [auto | discriminate].
Qed.

(** What [match_here] captures is a non-empty run without white space. *)
Lemma match_here_token s tok :
  match_here s = Some tok ->
  tok <> EmptyString /\ all_of is_nonspace tok = true.
Proof.
  unfold match_here. intros H.
  destruct (literal_ci "Bearer" s) as [r|]; [|discriminate].
  destruct (span is_space r) as [ws r1].
  destruct ws as [|w ws]; [discriminate|].
  destruct (span is_nonspace r1) as [t r2] eqn:Ht.
  destruct t as [|c t]; [discriminate|].
  inversion H; subst. split; [discriminate|].
  now destruct (span_spec _ _ _ _ Ht) as (_ & A & _).
Qed.

Lemma match_here_some s :
  (exists tok, match_here s = Some tok) <->
  (exists b ws c rest,
      s = b ++ ws ++ String c rest
      /\ literal_ci "Bearer" b = Some EmptyString
      /\ ws <> EmptyString
      /\ all_of is_space ws = true
      /\ is_space c = false).
Proof.
  unfold match_here. split.
  - intros [tok H].
    destruct (literal_ci "Bearer" s) as [r|] eqn:Hl; [|discriminate].
    destruct (literal_ci_split _ _ _ Hl) as (b & -> & Hb).
    destruct (span is_space r) as [ws r1] eqn:Hw.
    destruct (span_spec _ _ _ _ Hw) as (-> & Aw & Sw).
    destruct ws as [|w ws]; [discriminate|].
    destruct (span is_nonspace r1) as [t r2] eqn:Ht.
    destruct t as [|c t]; [discriminate|].
    destruct (span_spec _ _ _ _ Ht) as (-> & At & _).
    simpl in At. apply andb_true_iff in At. destruct At as [Hc _].
    exists b, (String w ws), c, (t ++ r2).
    split; [reflexivity|]. split; [exact Hb|]. split; [discriminate|].
    split; [exact Aw|].
    unfold is_nonspace in Hc. now destruct (is_space c).
  - intros (b & ws & c & rest & -> & Hb & Hne & Aw & Hc).
    rewrite (literal_ci_app _ _ _ Hb).
    rewrite (span_app is_space ws (String c rest) Aw Hc).
    destruct ws as [|w ws]; [congruence|].
    simpl. unfold is_nonspace at 1. rewrite Hc. simpl.
    destruct (span is_nonspace rest) as [t r2]. eauto.
Qed.

Lemma search_nil : search EmptyString = None.
Proof. reflexivity. Qed.

Lemma search_cons c s :
  search (String c s) =
  match match_here (String c s) with
  | Some tok => Some tok
  | None => search s
  end.
Proof. reflexivity. Qed.

Lemma search_some s :
  (exists tok, search s = Some tok) <->
  (exists pre suf, s = pre ++ suf /\ exists tok, match_here suf = Some tok).
Proof.
  split.
  - induction s as [|c s IH].
    + rewrite search_nil. intros [tok H]. discriminate.
    + rewrite search_cons. intros [tok H].
      destruct (match_here (String c s)) as [t|] eqn:E.
      * exists EmptyString, (String c s). eauto.
      * destruct (IH (ex_intro _ tok H)) as (pre & suf & -> & Hs).
        exists (String c pre), suf. auto.
  - intros (pre & suf & -> & tok & H). induction pre as [|c pre IH].
    + change (EmptyString ++ suf) with suf.
      destruct suf as [|c suf]; [discriminate H|].
      rewrite search_cons, H. eauto.
    + change (String c pre ++ suf) with (String c (pre ++ suf)).
      rewrite search_cons.
      destruct (match_here (String c (pre ++ suf))); eauto.
Qed.

Lemma search_token s tok :
  search s = Some tok -> tok <> EmptyString /\ all_of is_nonspace tok = true.
Proof.
  induction s as [|c s IH].
  - rewrite search_nil. discriminate.
  - rewrite search_cons.
    destruct (match_here (String c s)) eqn:E; [|exact IH].
    intros H; inversion H; subst. eapply match_here_token; eauto.
Qed.

Lemma search_contains s :
  (exists tok, search s = Some tok) <-> contains_bearer s.
Proof.
  rewrite search_some. unfold contains_bearer. split.
  - intros (pre & suf & -> & Hm). apply match_here_some in Hm.
    destruct Hm as (b & ws & c & rest & -> & H).
    exists pre, b, ws, c, rest. auto.
  - intros (pre & b & ws & c & rest & -> & H).
    exists pre, (b ++ ws ++ String c rest). split; [reflexivity|].
    apply match_here_some. exists b, ws, c, rest. auto.
Qed.

Lemma search_none s : search s = None <-> ~ contains_bearer s.
Proof.
  rewrite <- search_contains. destruct (search s) as [t|].
  - split; [discriminate | intros H; exfalso; eauto].
  - split; [intros _ [t H]; discriminate | reflexivity].
Qed.

(** Under the [i] flag a code unit matches a letter of the pattern
    exactly when it is that letter in upper or in lower case. *)
Lemma eqb_ci_B c : eqb_ci "B" c = true <-> (c = "B" \/ c = "b")%char.
Proof.
  destruct c as [[] [] [] [] [] [] [] []]; vm_compute;
    split; intros H; try discriminate; auto;
    destruct H as [H|H]; discriminate.
Qed.

Lemma eqb_ci_e c : eqb_ci "e" c = true <-> (c = "E" \/ c = "e")%char.
Proof.
  destruct c as [[] [] [] [] [] [] [] []]; vm_compute;
    split; intros H; try discriminate; auto;
    destruct H as [H|H]; discriminate.
Qed.

Lemma eqb_ci_a c : eqb_ci "a" c = true <-> (c = "A" \/ c = "a")%char.
Proof.
  destruct c as [[] [] [] [] [] [] [] []]; vm_compute;
    split; intros H; try discriminate; auto;
    destruct H as [H|H]; discriminate.
Qed.

Lemma eqb_ci_r c : eqb_ci "r" c = true <-> (c = "R" \/ c = "r")%char.
Proof.
  destruct c as [[] [] [] [] [] [] [] []]; vm_compute;
    split; intros H; try discriminate; auto;
    destruct H as [H|H]; discriminate.
Qed.

End PatternFacts.

Lemma getBearerToken_nonempty h tok :
  getBearerToken h = Some tok -> tok <> EmptyString.
Proof.
  unfold getBearerToken. destruct (is_string h); [|discriminate].
  intros H. now apply PatternFacts.search_token in H.
Qed.

Lemma getBearerToken_none h :
  getBearerToken h = None <-> (forall s, h = VString s -> ~ contains_bearer s).
Proof.
  unfold getBearerToken. destruct h; simpl;
    try (split; [intros _ s0 H; discriminate | reflexivity]).
  rewrite PatternFacts.search_none. split.
  - intros H s0 E. inversion E; subst. exact H.
  - intros H. now apply H.
Qed.

Lemma append_assoc (a b c : string) : (a ++ b) ++ c = a ++ (b ++ c).
Proof. induction a as [|x a IH]; simpl; [reflexivity | now rewrite IH]. Qed.

Lemma append_empty_r (a : string) : a ++ "" = a.
Proof. induction a as [|x a IH]; simpl; [reflexivity | now rewrite IH]. Qed.

(** ** Runs of the methods *)

Section Runs.

Context (J : Jose) (R : Runtime).

Lemma Qgtb_true a b : Qgtb a b = true <-> (b < a)%Q.
Proof.
  unfold Qgtb. rewrite negb_true_iff. split.
  - intros H. apply Qnot_le_lt. intros L.
    apply Qle_bool_iff in L. congruence.
  - intros H. destruct (Qle_bool a b) eqn:E; [|reflexivity].
    apply Qle_bool_iff in E. exfalso. now apply (Qlt_not_le _ _ H).
Qed.

Lemma truthy_false q : truthy q = false <-> (q == 0)%Q.
Proof.
  unfold truthy. rewrite negb_false_iff. apply Qeq_bool_iff.
Qed.

Lemma issued_after_true p updated :
  issued_after p updated = true <->
  exists i, iat p = Some i /\ ~ (i == 0)%Q /\ (updated < i)%Q.
Proof.
  unfold issued_after. destruct (iat p) as [i|].
  - rewrite andb_true_iff, Qgtb_true. unfold truthy.
    rewrite negb_true_iff. split.
    + intros [T G]. exists i. repeat split; auto.
      intros E. apply Qeq_bool_iff in E. congruence.
    + intros (i' & E & N & G). inversion E; subst. split; auto.
      destruct (Qeq_bool i' 0) eqn:B; [|reflexivity].
      apply Qeq_bool_iff in B. contradiction.
  - split; [discriminate | intros (i & E & _); discriminate].
Qed.

(** *** [listPublicKeys] and [refreshKeyStore] *)

Lemma listPublicKeys_run (m : Machine J) :
  listPublicKeys J R m =
  let r1 := discovery_getBaseUrl R (trace m) "auth" in
  let m1 := logged (GetBaseUrl "auth" r1) m in
  match r1 with
  | None => (inl DiscoveryError, m1)
  | Some base =>
      let url := base ++ "/.well-known/jwks.json" in
      let r2 := fetch R (trace m1) url in
      let m2 := logged (Fetch url r2) m1 in
      match r2 with
      | None => (inl NetworkError, m2)
      | Some response =>
          if response_ok response then
            match JSON_parse R (body response) with
            | Some v => (inr v, m2)
            | None => (inl SyntaxError, m2)
            end
          else (inl (Error (request_failed_message response (body response))), m2)
      end
  end.
Proof.
  unfold listPublicKeys, getBaseUrl, http_get, bind, history, emit, try, throw, ret.
  cbn. destruct (discovery_getBaseUrl R (trace m) "auth") as [base|]; cbn; [|reflexivity].
  destruct (fetch R _ _) as [resp|]; cbn; [|reflexivity].
  destruct (response_ok resp); cbn; [|reflexivity].
  destruct (JSON_parse R (body resp)); reflexivity.
Qed.

Lemma listPublicKeys_frame (m m' : Machine J) r :
  listPublicKeys J R m = (r, m') ->
  self m' = self m
  /\ (fetch_calls (trace m') <= S (fetch_calls (trace m)))%nat
  /\ (forall v, r = inr v -> fetch_calls (trace m') = S (fetch_calls (trace m)))
  /\ lookups (trace m') = lookups (trace m).
Proof.
  rewrite listPublicKeys_run. cbv zeta.
  destruct (discovery_getBaseUrl R (trace m) "auth") as [base|].
  - destruct (fetch R _ _) as [resp|].
    + destruct (response_ok resp); [destruct (JSON_parse R (body resp))|];
        intros H; inversion H; subst; cbn; repeat split; auto; discriminate.
    + intros H; inversion H; subst; cbn; repeat split; auto; discriminate.
  - intros H; inversion H; subst; cbn; repeat split; auto; discriminate.
Qed.

Lemma refreshKeyStore_run (m : Machine J) :
  refreshKeyStore J R m =
  let ms := Date_now R (trace m) in
  match listPublicKeys J R (logged (DateNow ms) m) with
  | (inl e, m2) => (inl e, m2)
  | (inr publicKeys, m2) =>
      match keys_array publicKeys with
      | None => (inl TypeError, m2)
      | Some items =>
          match map_asKey J items with
          | None => (inl JoseKeyError, m2)
          | Some keys =>
              (inr tt,
               {| self := {| issuer := issuer (self m2);
                             keyStore := keys;
                             keyStoreUpdated := seconds ms |};
                  trace := trace m2 |})
          end
      end
  end.
Proof.
  unfold refreshKeyStore, date_now, bind, history, emit, try, throw, ret,
    set_keyStore, set_keyStoreUpdated.
  cbn. destruct (listPublicKeys J R _) as [[e|v] m2]; [reflexivity|].
  destruct (keys_array v) as [items|]; [|reflexivity].
  destruct (map_asKey J items); reflexivity.
Qed.

(** A refresh that throws has assigned nothing. *)
Lemma refreshKeyStore_throws (m m' : Machine J) e :
  refreshKeyStore J R m = (inl e, m') -> self m' = self m.
Proof.
  rewrite refreshKeyStore_run. cbv zeta.
  destruct (listPublicKeys J R _) as [[e'|v] m2] eqn:L;
    apply listPublicKeys_frame in L; destruct L as (S & _).
  - intros H; inversion H; subst. exact S.
  - destruct (keys_array v) as [items|]; [destruct (map_asKey J items)|];
      intros H; inversion H; subst; exact S.
Qed.

(** A refresh that returns made one request and installed the keys of
    its answer, all of them, with the time read before the request. *)
Lemma refreshKeyStore_returns (m m' : Machine J) :
  refreshKeyStore J R m = (inr tt, m') ->
  fetch_calls (trace m') = S (fetch_calls (trace m))
  /\ lookups (trace m') = lookups (trace m)
  /\ issuer (self m') = issuer (self m)
  /\ keyStoreUpdated (self m') = seconds (Date_now R (trace m))
  /\ exists url response publicKeys items,
       In (Fetch url (Some response)) (trace m')
       /\ JSON_parse R (body response) = Some publicKeys
       /\ keys_array publicKeys = Some items
       /\ map_asKey J items = Some (keyStore (self m')).
Proof.
  rewrite refreshKeyStore_run. cbv zeta.
  destruct (listPublicKeys J R _) as [[e'|v] m2] eqn:L; [discriminate|].
  destruct (keys_array v) as [items|] eqn:K; [|discriminate].
  destruct (map_asKey J items) as [keys|] eqn:A; [|discriminate].
  intros H; inversion H; subst; clear H.
  pose proof (listPublicKeys_frame _ _ _ L) as (S & _ & F & Lk).
  specialize (F v eq_refl). cbn [trace self issuer keyStore keyStoreUpdated].
  rewrite F, Lk, S. split; [reflexivity|]. split; [reflexivity|].
  split; [reflexivity|]. split; [reflexivity|].
  rewrite listPublicKeys_run in L. cbv zeta in L.
  destruct (discovery_getBaseUrl R _ "auth") as [base|]; [|discriminate].
  destruct (fetch R _ _) as [resp|] eqn:Fe; [|discriminate].
  destruct (response_ok resp); [|discriminate].
  destruct (JSON_parse R (body resp)) as [v'|] eqn:P; [|discriminate].
  inversion L; subst. exists (base ++ "/.well-known/jwks.json"), resp, v, items.
  cbn. auto.
Qed.


Lemma map_asKey_refuses items bad :
  In bad items -> JWK_asKey J bad = None -> map_asKey J items = None.
Proof.
  induction items as [|item items IH]; simpl; [tauto|].
  intros [E|I] B.
  - subst. now rewrite B.
  - destruct (JWK_asKey J item); [|reflexivity]. now rewrite (IH I B).
Qed.

(** *** [getKey] *)

Lemma getKey_undecodable tok (m : Machine J) :
  JWT_decode J tok = None -> getKey J R tok m = (inl MalformedToken, m).
Proof.
  intros D. unfold getKey, bind, try. rewrite D. reflexivity.
Qed.

Lemma getKey_hit tok d key (m : Machine J) :
  JWT_decode J tok = Some d ->
  KeyStore_get J (keyStore (self m)) (kid (header d)) = Some key ->
  getKey J R tok m = (inr (Some key), after_lookups J (kid (header d)) true m).
Proof.
  intros D G. unfold getKey, bind, try, keyStore_get, this, emit, ret.
  rewrite D. cbn. rewrite G. cbn. rewrite G. reflexivity.
Qed.

Lemma getKey_miss tok d (m : Machine J) :
  JWT_decode J tok = Some d ->
  KeyStore_get J (keyStore (self m)) (kid (header d)) = None ->
  issued_after (payload d) (keyStoreUpdated (self m)) = false ->
  getKey J R tok m = (inr None, after_lookups J (kid (header d)) false m).
Proof.
  intros D G I. unfold getKey, bind, try, keyStore_get, this, emit, ret.
  rewrite D. cbn. rewrite G. cbn. rewrite I. cbn. rewrite G. reflexivity.
Qed.

Lemma getKey_refresh tok d (m : Machine J) :
  JWT_decode J tok = Some d ->
  KeyStore_get J (keyStore (self m)) (kid (header d)) = None ->
  issued_after (payload d) (keyStoreUpdated (self m)) = true ->
  let k := kid (header d) in
  getKey J R tok m =
  match refreshKeyStore J R (logged (KeyStoreGet k false) m) with
  | (inl e, m2) => (inl e, m2)
  | (inr _, m2) =>
      let r := KeyStore_get J (keyStore (self m2)) k in
      (inr r, logged (KeyStoreGet k (is_some r)) m2)
  end.
Proof.
  intros D G I k. unfold getKey.
  remember (refreshKeyStore J R) as refresh.
  unfold bind, try, keyStore_get, this, emit, ret.
  rewrite D. cbn. rewrite G. cbn. rewrite I. fold k.
  destruct (refresh _) as [[e|[]] m2]; reflexivity.
Qed.

(** The key [getKey] returns is the one the store holds, at the end of
    the call, for the [kid] of the token. *)
Lemma getKey_returns tok key (m m1 : Machine J) :
  getKey J R tok m = (inr (Some key), m1) ->
  exists d, JWT_decode J tok = Some d
            /\ KeyStore_get J (keyStore (self m1)) (kid (header d)) = Some key
            /\ issuer (self m1) = issuer (self m).
Proof.
  destruct (JWT_decode J tok) as [d|] eqn:D.
  2:{ rewrite (getKey_undecodable _ _ D). discriminate. }
  intros H. exists d. split; [reflexivity|].
  destruct (KeyStore_get J (keyStore (self m)) (kid (header d))) as [key0|] eqn:G.
  - rewrite (getKey_hit _ _ _ _ D G) in H. inversion H; subst. cbn. auto.
  - destruct (issued_after (payload d) (keyStoreUpdated (self m))) eqn:I.
    + rewrite (getKey_refresh _ _ _ D G I) in H. cbv zeta in H.
      destruct (refreshKeyStore J R _) as [[e|[]] m2] eqn:Rf; [discriminate|].
      apply refreshKeyStore_returns in Rf. destruct Rf as (_ & _ & Is & _).
      inversion H; subst. cbn. rewrite H1. auto.
    + rewrite (getKey_miss _ _ _ D G I) in H. discriminate.
Qed.

(** *** [authenticate] *)

Lemma authenticate_no_token h (m : Machine J) :
  getBearerToken h = None -> authenticate J R h m = (inl MissingToken, m).
Proof.
  intros H. unfold authenticate. rewrite H. reflexivity.
Qed.

Lemma authenticate_token h tok (m : Machine J) :
  getBearerToken h = Some tok ->
  authenticate J R h m =
  match getKey J R tok m with
  | (inl e, m1) => (inl e, m1)
  | (inr None, m1) => (inl UnknownKey, m1)
  | (inr (Some key), m1) => verification J R tok key m1
  end.
Proof.
  intros H. unfold authenticate. rewrite H.
  destruct tok as [|c tok]; [now apply getBearerToken_nonempty in H|].
  unfold bind. destruct (getKey J R _ m) as [[e|[key|]] m1]; try reflexivity.
  unfold verification, this, date_now, history, emit, try, bind, ret, throw.
  cbn. destruct (JWT_IdToken_verify J _ key _ _); reflexivity.
Qed.

Lemma authenticate_hit h tok d key (m : Machine J) :
  getBearerToken h = Some tok ->
  JWT_decode J tok = Some d ->
  KeyStore_get J (keyStore (self m)) (kid (header d)) = Some key ->
  authenticate J R h m =
  verification J R tok key (after_lookups J (kid (header d)) true m).
Proof.
  intros H D G. rewrite (authenticate_token _ _ _ H), (getKey_hit _ _ _ _ D G).
  reflexivity.
Qed.

Lemma verification_frame tok key (m : Machine J) :
  self (snd (verification J R tok key m)) = self m
  /\ fetch_calls (trace (snd (verification J R tok key m))) = fetch_calls (trace m).
Proof. split; reflexivity. Qed.

End Runs.

(** ** Properties of [authenticate] *)

Section Properties.

Context (J : Jose) (R : Runtime).

(** The errors a refresh can end with. *)
Lemma refreshKeyStore_errors (m m' : Machine J) e :
  refreshKeyStore J R m = (inl e, m') ->
  In e [DiscoveryError; NetworkError; SyntaxError; TypeError; JoseKeyError]
  \/ exists response payload, e = Error (request_failed_message response payload).
Proof.
  rewrite refreshKeyStore_run. cbv zeta. rewrite listPublicKeys_run. cbv zeta.
  destruct (discovery_getBaseUrl R _ "auth") as [base|].
  2:{ intros H; inversion H; subst. left. simpl. auto. }
  destruct (fetch R _ _) as [resp|].
  2:{ intros H; inversion H; subst. left. simpl. auto. }
  destruct (response_ok resp).
  2:{ intros H; inversion H; subst. right. eauto. }
  destruct (JSON_parse R (body resp)) as [v|].
  2:{ intros H; inversion H; subst. left. simpl. auto. }
  destruct (keys_array v) as [items|].
  2:{ intros H; inversion H; subst. left. simpl. auto. }
  destruct (map_asKey J items).
  - discriminate.
  - intros H; inversion H; subst. left. simpl. auto 6.
Qed.

Lemma getKey_errors tok (m m' : Machine J) e :
  getKey J R tok m = (inl e, m') -> e <> MissingToken.
Proof.
  destruct (JWT_decode J tok) as [d|] eqn:D.
  2:{ rewrite (getKey_undecodable _ _ _ _ D). intros H; inversion H. discriminate. }
  destruct (KeyStore_get J (keyStore (self m)) (kid (header d))) as [key|] eqn:G.
  { rewrite (getKey_hit _ _ _ _ _ _ D G). discriminate. }
  destruct (issued_after (payload d) (keyStoreUpdated (self m))) eqn:I.
  2:{ rewrite (getKey_miss _ _ _ _ _ D G I). discriminate. }
  rewrite (getKey_refresh _ _ _ _ _ D G I). cbv zeta.
  destruct (refreshKeyStore J R _) as [[e'|[]] m2] eqn:Rf; [|discriminate].
  intros H; inversion H; subst.
  destruct (refreshKeyStore_errors _ _ _ Rf) as [In5|(resp & b & ->)].
  - simpl in In5. intuition (subst; discriminate).
  - unfold MissingToken, request_failed_message. simpl. discriminate.
Qed.

(** C1. A token that verifies against a key the store holds for its
    [kid] yields an identity whose [id] is the subject claim of the
    token and whose [idToken] is the token taken from the header. *)
Theorem authenticate_valid_token h tok d key p (m : Machine J) :
  JoseContract J ->
  getBearerToken h = Some tok ->
  JWT_decode J tok = Some d ->
  KeyStore_get J (keyStore (self m)) (kid (header d)) = Some key ->
  JWT_IdToken_verify J tok key (verify_options J (self m))
    (Date_now R (trace (after_lookups J (kid (header d)) true m))) = Some p ->
  fst (authenticate J R h m) = inr {| id := sub (payload d); idToken := tok |}.
Proof.
  intros C H D G V. rewrite (authenticate_hit _ _ _ _ _ _ _ H D G).
  unfold verification. cbn [fst]. cbn [self after_lookups logged].
  rewrite V. destruct (verify_decoded J C _ _ _ _ _ V) as (d' & D' & P & _).
  rewrite D in D'. inversion D'; subst. reflexivity.
Qed.

(** C10. When the first lookup finds a key for the [kid] of the token,
    the call leaves the key store and [keyStoreUpdated] as they were. *)
Theorem authenticate_hit_frame h tok d key (m : Machine J) :
  getBearerToken h = Some tok ->
  JWT_decode J tok = Some d ->
  KeyStore_get J (keyStore (self m)) (kid (header d)) = Some key ->
  keyStore (self (snd (authenticate J R h m))) = keyStore (self m)
  /\ keyStoreUpdated (self (snd (authenticate J R h m))) = keyStoreUpdated (self m)
  /\ self (snd (authenticate J R h m)) = self m.
Proof.
  intros H D G. rewrite (authenticate_hit _ _ _ _ _ _ _ H D G).
  repeat split; reflexivity.
Qed.

(** C5. A token that [JWT.decode] refuses, as it does every string
    that does not have three segments, makes [authenticate] fail with
    [MalformedToken]; no lookup and no call to the network precedes
    the failure: the trace is the one before the call. *)
Theorem authenticate_malformed h tok (m : Machine J) :
  JoseContract J ->
  getBearerToken h = Some tok ->
  length (segments tok) <> 3%nat \/ JWT_decode J tok = None ->
  authenticate J R h m = (inl MalformedToken, m).
Proof.
  intros C H B. assert (D : JWT_decode J tok = None).
  { destruct B as [B|B]; [|exact B].
    destruct (JWT_decode J tok) as [d|] eqn:D; [|reflexivity].
    now apply (decode_segments J C) in D. }
  rewrite (authenticate_token _ _ _ _ _ H), (getKey_undecodable _ _ _ _ D).
  reflexivity.
Qed.

(** C9. A token without [iat], or with [iat] zero, never causes a
    refresh: on a miss [authenticate] fails with the no-matching-key
    error after two lookups and no request, also on a client that was
    just constructed. *)
Theorem authenticate_without_iat h tok d :
  getBearerToken h = Some tok ->
  JWT_decode J tok = Some d ->
  iat (payload d) = None \/ (exists i, iat (payload d) = Some i /\ (i == 0)%Q) ->
  let k := kid (header d) in
  (forall m : Machine J,
      KeyStore_get J (keyStore (self m)) k = None ->
      authenticate J R h m = (inl UnknownKey, after_lookups J k false m)
      /\ fetch_calls (trace (snd (authenticate J R h m))) = fetch_calls (trace m))
  /\ (forall issuer0 t,
         let m := {| self := new_IdentityClient J issuer0; trace := t |} in
         authenticate J R h m = (inl UnknownKey, after_lookups J k false m)
         /\ fetch_calls (trace (snd (authenticate J R h m))) = fetch_calls t).
Proof.
  intros H D Z k.
  assert (N : forall u, issued_after (payload d) u = false).
  { intros u. unfold issued_after. destruct Z as [->|(i & -> & E)]; [reflexivity|].
    apply truthy_false in E. now rewrite E. }
  assert (A : forall m : Machine J,
             KeyStore_get J (keyStore (self m)) k = None ->
             authenticate J R h m = (inl UnknownKey, after_lookups J k false m)
             /\ fetch_calls (trace (snd (authenticate J R h m))) = fetch_calls (trace m)).
  { intros m G. rewrite (authenticate_token _ _ _ _ _ H).
    rewrite (getKey_miss _ _ _ _ _ D G (N _)). split; reflexivity. }
  split; [exact A|]. intros issuer0 t m. apply (A m). reflexivity.
Qed.

(** When the header holds no token for the pattern.  [authenticate]
    fails with [MissingToken], touching nothing, exactly when the header is not a string or is a
    string in which [Bearer], in any letter case, followed by a run of
    white space and a code unit that is not white space, occurs
    nowhere.  The pattern is searched for in the whole header: it need
    not stand at its start. *)
Theorem authenticate_missing_token h (m : Machine J) :
  (fst (authenticate J R h m) = inl MissingToken
   <-> (forall s, h = VString s -> ~ contains_bearer s))
  /\ ((forall s, h = VString s -> ~ contains_bearer s) ->
      authenticate J R h m = (inl MissingToken, m)).
Proof.
  rewrite <- getBearerToken_none. split; [split|].
  - destruct (getBearerToken h) as [tok|] eqn:H; [|reflexivity].
    rewrite (authenticate_token _ _ _ _ _ H).
    destruct (getKey J R tok m) as [[e|[key|]] m1] eqn:K; cbn [fst].
    + intros E. inversion E; subst. now apply getKey_errors in K.
    + unfold verification. cbn [fst].
      destruct (JWT_IdToken_verify J _ _ _ _); discriminate.
    + discriminate.
  - intros H. now rewrite (authenticate_no_token _ _ _ _ H).
  - apply authenticate_no_token.
Qed.


(** C4. Verification is asked for with one algorithm, [ES256], the
    audience [backstage] and the issuer of the client, whatever the
    token says.  So a call that returns an identity had a token with
    that algorithm, audience and issuer, and a call whose token differs
    in one of them fails with [InvalidToken] once a key is found. *)
Theorem authenticate_checks_claims h tok d (m : Machine J) :
  JoseContract J ->
  getBearerToken h = Some tok ->
  JWT_decode J tok = Some d ->
  (forall c : IdentityClient J,
      verify_options J c
      = {| algorithms := ["ES256"]; audience := "backstage"; issuer_opt := issuer c |})
  /\ (forall user m',
         authenticate J R h m = (inr user, m') ->
         alg (header d) = "ES256"
         /\ In "backstage" (aud (payload d))
         /\ iss (payload d) = Some (issuer (self m)))
  /\ (forall key m1,
         getKey J R tok m = (inr (Some key), m1) ->
         alg (header d) <> "ES256"
         \/ ~ In "backstage" (aud (payload d))
         \/ iss (payload d) <> Some (issuer (self m)) ->
         fst (authenticate J R h m) = inl InvalidToken).
Proof.
  intros C H D.
  assert (S : forall key m1 p,
             getKey J R tok m = (inr (Some key), m1) ->
             JWT_IdToken_verify J tok key (verify_options J (self m1))
               (Date_now R (trace m1)) = Some p ->
             alg (header d) = "ES256"
             /\ In "backstage" (aud (payload d))
             /\ iss (payload d) = Some (issuer (self m))).
  { intros key m1 p K V.
    destruct (getKey_returns _ _ _ _ _ _ K) as (d0 & D0 & _ & Is).
    destruct (verify_decoded J C _ _ _ _ _ V) as (d' & D' & P & A).
    rewrite D in D'. inversion D'; subst d'. subst p.
    apply (verify_audience J C) in V as Au.
    apply (verify_issuer J C) in V as Iss.
    cbn in A, Au, Iss. rewrite Is in Iss. intuition. }
  split; [reflexivity|]. rewrite (authenticate_token _ _ _ _ _ H). split.
  - intros user m'.
    destruct (getKey J R tok m) as [[e|[key|]] m1] eqn:K; try discriminate.
    unfold verification.
    destruct (JWT_IdToken_verify J tok key _ _) as [p|] eqn:V; [|discriminate].
    intros _. exact (S _ _ _ eq_refl V).
  - intros key m1 K Bad. rewrite K. unfold verification. cbn [fst].
    destruct (JWT_IdToken_verify J tok key _ _) as [p|] eqn:V; [|reflexivity].
    exfalso. destruct (S _ _ _ K V) as (A1 & A2 & A3). tauto.
Qed.

(** C6. Once the request has an answer, the refresh throws and assigns
    nothing when the status is outside 200..299, and then the message
    of its error holds the status, the status text and the body; when
    the body is not JSON; when the JSON has no [keys] array; and when
    [JWK.asKey] refuses one record of the array. *)
Theorem refreshKeyStore_fails (m : Machine J) base response :
  let m1 := logged (DateNow (Date_now R (trace m))) m in
  discovery_getBaseUrl R (trace m1) "auth" = Some base ->
  let url := base ++ "/.well-known/jwks.json" in
  fetch R (trace (logged (GetBaseUrl "auth" (Some base)) m1)) url = Some response ->
  (~ (200 <= status response <= 299) ->
     let message := request_failed_message response (body response) in
     refresh_fails J R (Error message) m
     /\ Substring (show_Z (status response)) message
     /\ Substring (statusText response) message
     /\ Substring (body response) message)
  /\ (200 <= status response <= 299 ->
      (JSON_parse R (body response) = None -> refresh_fails J R SyntaxError m)
      /\ (forall v,
             JSON_parse R (body response) = Some v ->
             keys_array v = None ->
             refresh_fails J R TypeError m)
      /\ (forall v items bad,
             JSON_parse R (body response) = Some v ->
             keys_array v = Some items ->
             In bad items ->
             JWK_asKey J bad = None ->
             refresh_fails J R JoseKeyError m)).
Proof.
  intros m1 Hd url Hf. unfold refresh_fails.
  rewrite refreshKeyStore_run. cbv zeta. fold m1.
  rewrite listPublicKeys_run. cbv zeta. rewrite Hd. fold url. rewrite Hf.
  split.
  - intros Out.
    assert (O : response_ok response = false).
    { unfold response_ok. apply andb_false_iff.
      destruct (Z.leb_spec 200 (status response)); [|now left].
      destruct (Z.leb_spec (status response) 299); [|now right]. lia. }
    rewrite O. split; [eexists; split; reflexivity|].
    unfold request_failed_message, Substring. repeat split.
    + exists "Request failed with ",
        (" " ++ statusText response ++ ", " ++ body response).
      reflexivity.
    + exists ("Request failed with " ++ show_Z (status response) ++ " "),
        (", " ++ body response).
      now rewrite !append_assoc.
    + exists ("Request failed with " ++ show_Z (status response) ++ " "
              ++ statusText response ++ ", "), "".
      now rewrite !append_assoc, append_empty_r.
  - intros In_range.
    assert (O : response_ok response = true).
    { unfold response_ok. apply andb_true_iff. split; apply Z.leb_le; lia. }
    rewrite O. repeat split.
    + intros P. rewrite P. eexists; split; reflexivity.
    + intros v P K. rewrite P, K. eexists; split; reflexivity.
    + intros v items bad P K I B. rewrite P, K.
      rewrite (map_asKey_refuses J _ _ I B). eexists; split; reflexivity.
Qed.

(** C7. When the refresh that [authenticate] starts throws, the key
    store and [keyStoreUpdated] are what they were, [authenticate]
    ends with the error of the refresh, and the middleware answers the
    request with status 401. *)
Theorem refresh_failure_frame h tok d e (m m2 : Machine J) :
  getBearerToken h = Some tok ->
  JWT_decode J tok = Some d ->
  KeyStore_get J (keyStore (self m)) (kid (header d)) = None ->
  issued_after (payload d) (keyStoreUpdated (self m)) = true ->
  refreshKeyStore J R (logged (KeyStoreGet (kid (header d)) false) m) = (inl e, m2) ->
  keyStore (self m2) = keyStore (self m)
  /\ keyStoreUpdated (self m2) = keyStoreUpdated (self m)
  /\ authenticate J R h m = (inl e, m2)
  /\ authMiddleware J R h m = (inr (Send 401 "Unauthorized"), m2).
Proof.
  intros H D G I Rf.
  assert (A : authenticate J R h m = (inl e, m2)).
  { rewrite (authenticate_token _ _ _ _ _ H), (getKey_refresh _ _ _ _ _ D G I).
    cbv zeta. now rewrite Rf. }
  apply refreshKeyStore_throws in Rf. cbn in Rf.
  unfold authMiddleware. rewrite A, Rf. auto.
Qed.

(** C8. After a call that returned an identity, a second call with the
    same header, made while the token still verifies, returns the same
    identity, changes no field of the client and makes no request. *)
Theorem authenticate_twice h user (m0 m1 : Machine J) :
  JoseContract J ->
  authenticate J R h m0 = (inr user, m1) ->
  fst (authenticate J R h m1) <> inl InvalidToken ->
  fst (authenticate J R h m1) = inr user
  /\ self (snd (authenticate J R h m1)) = self m1
  /\ fetch_calls (trace (snd (authenticate J R h m1))) = fetch_calls (trace m1).
Proof.
  intros C A1 Valid.
  destruct (getBearerToken h) as [tok|] eqn:H.
  2:{ rewrite (authenticate_no_token _ _ _ _ H) in A1. discriminate. }
  rewrite (authenticate_token _ _ _ _ _ H) in A1.
  destruct (getKey J R tok m0) as [[e|[key|]] m'] eqn:K; try discriminate.
  destruct (getKey_returns _ _ _ _ _ _ K) as (d & D & G & _).
  unfold verification in A1.
  destruct (JWT_IdToken_verify J tok key _ _) as [p|] eqn:V; [|discriminate].
  inversion A1; subst user m1; clear A1.
  destruct (verify_decoded J C _ _ _ _ _ V) as (d1 & D1 & P1 & _).
  rewrite D in D1. inversion D1; subst d1.
  assert (G' : KeyStore_get J (keyStore (self (logged (DateNow (Date_now R (trace m'))) m')))
                 (kid (header d)) = Some key) by exact G.
  rewrite (authenticate_hit _ _ _ _ _ _ _ H D G') in *.
  unfold verification in *. cbn [fst snd] in *.
  destruct (JWT_IdToken_verify J tok key _ (Date_now R (trace (after_lookups _ _ _ _))))
    as [p2|] eqn:V2; [|congruence].
  destruct (verify_decoded J C _ _ _ _ _ V2) as (d2 & D2 & P2 & _).
  rewrite D in D2. inversion D2; subst d2.
  split; [congruence|]. split; reflexivity.
Qed.

(** [keyStoreUpdated] is never negative while the clock is not. *)
Lemma seconds_nonneg ms : 0 <= ms -> (0 <= seconds ms)%Q.
Proof.
  intros H. unfold seconds, Qdiv. apply Qmult_le_0_compat.
  - unfold Qle. simpl. lia.
  - discriminate.
Qed.

(** X13. While the clock does not go below zero, [keyStoreUpdated]
    does not either: a call of [authenticate] on a client whose
    [keyStoreUpdated] is not negative leaves it not negative. *)
Lemma authenticate_keeps_nonneg h (m : Machine J) :
  (forall t, 0 <= Date_now R t) ->
  (0 <= keyStoreUpdated (self m))%Q ->
  (0 <= keyStoreUpdated (self (snd (authenticate J R h m))))%Q.
Proof.
  intros Clock P.
  destruct (getBearerToken h) as [tok|] eqn:H.
  2:{ now rewrite (authenticate_no_token _ _ _ _ H). }
  rewrite (authenticate_token _ _ _ _ _ H).
  assert (K : (0 <= keyStoreUpdated (self (snd (getKey J R tok m))))%Q).
  { destruct (JWT_decode J tok) as [d|] eqn:D.
    2:{ now rewrite (getKey_undecodable _ _ _ _ D). }
    destruct (KeyStore_get J (keyStore (self m)) (kid (header d))) as [key|] eqn:G.
    { now rewrite (getKey_hit _ _ _ _ _ _ D G). }
    destruct (issued_after (payload d) (keyStoreUpdated (self m))) eqn:I.
    2:{ now rewrite (getKey_miss _ _ _ _ _ D G I). }
    rewrite (getKey_refresh _ _ _ _ _ D G I). cbv zeta.
    destruct (refreshKeyStore J R _) as [[e|[]] m2] eqn:Rf.
    - apply refreshKeyStore_throws in Rf. cbn [snd]. now rewrite Rf.
    - apply refreshKeyStore_returns in Rf. destruct Rf as (_ & _ & _ & U & _).
      cbn. rewrite U. apply seconds_nonneg, Clock. }
  destruct (getKey J R tok m) as [[e|[key|]] m1]; exact K.
Qed.

End Properties.

(** ** The small world satisfies the contract *)

Lemma toy_contract : JoseContract Toy.jose.
Proof.
  assert (V : forall tok key o clock p,
             Toy.verify tok key o clock = Some p ->
             exists d, Toy.decode tok = Some d /\ payload d = p
                       /\ In (alg (header d)) (algorithms o)
                       /\ In (audience o) (aud p)
                       /\ iss p = Some (issuer_opt o)).
  { intros tok key o clock p. unfold Toy.verify.
    destruct (Toy.decode tok) as [d|]; [|discriminate].
    destruct (existsb _ (algorithms o)) eqn:A; [|discriminate].
    destruct (Toy.signed_with tok key); [|discriminate].
    destruct (existsb _ (aud (payload d))) eqn:Au; [|discriminate].
    destruct (iss (payload d)) as [i|] eqn:Is; [|discriminate].
    destruct (String.eqb i (issuer_opt o)) eqn:E; [|discriminate].
    destruct (Toy.not_expired (payload d) clock); [|discriminate].
    cbn. intros H; inversion H; subst p. exists d.
    apply existsb_exists in A. destruct A as (a & Ia & Ea).
    apply String.eqb_eq in Ea. subst a.
    apply existsb_exists in Au. destruct Au as (a & Ia' & Ea').
    apply String.eqb_eq in Ea'. subst a.
    apply String.eqb_eq in E. subst i. auto. }
  split.
  - intros tok d. cbn. unfold Toy.decode.
    destruct (segments tok) as [|a [|b [|c [|x l]]]]; try discriminate. reflexivity.
  - intros tok key o clock p H. destruct (V _ _ _ _ _ H) as (d & ? & ? & ? & _). eauto.
  - intros tok key o clock p H. now destruct (V _ _ _ _ _ H) as (d & _ & _ & _ & ? & _).
  - intros tok key o clock p H. now destruct (V _ _ _ _ _ H) as (d & _ & _ & _ & _ & ?).
Qed.

(** ** Runs in the small world *)

Lemma authenticate_valid_token_witness :
  fst (authenticate Toy.jose (Toy.runtime None) (VString "Bearer k1.alice.s1") Toy.warm)
  = inr {| id := "alice"; idToken := "k1.alice.s1" |}.
Proof.
  exact (authenticate_valid_token Toy.jose (Toy.runtime None)
           (VString "Bearer k1.alice.s1") "k1.alice.s1"
           (Toy.decoded "k1" "alice" (Some 1500%Q) "backstage") ("k1", "s1")
           (Toy.claims_of "alice" (Some 1500%Q) "backstage") Toy.warm
           toy_contract eq_refl eq_refl eq_refl eq_refl).
Defined.

Lemma authenticate_hit_frame_witness :
  keyStore (self (snd (authenticate Toy.jose (Toy.runtime None)
                         (VString "Bearer k1.alice.s1") Toy.warm)))
  = keyStore (self Toy.warm).
Proof.
  exact (proj1 (authenticate_hit_frame Toy.jose (Toy.runtime None)
                  (VString "Bearer k1.alice.s1") "k1.alice.s1"
                  (Toy.decoded "k1" "alice" (Some 1500%Q) "backstage") ("k1", "s1")
                  Toy.warm eq_refl eq_refl eq_refl)).
Defined.

Lemma authenticate_malformed_witness :
  authenticate Toy.jose (Toy.runtime (Toy.ok_with "one-key"))
    (VString "Bearer not-a-token") Toy.fresh
  = (inl MalformedToken, Toy.fresh).
Proof.
  apply (authenticate_malformed Toy.jose (Toy.runtime (Toy.ok_with "one-key"))
           (VString "Bearer not-a-token") "not-a-token" Toy.fresh toy_contract eq_refl).
  left. simpl. discriminate.
Defined.

Lemma authenticate_without_iat_witness :
  authenticate Toy.jose (Toy.runtime (Toy.ok_with "one-key"))
    (VString "Bearer k1.bob.s1") Toy.fresh
  = (inl UnknownKey, after_lookups Toy.jose (Some "k1") false Toy.fresh).
Proof.
  refine (proj1 (proj2 (authenticate_without_iat Toy.jose
                          (Toy.runtime (Toy.ok_with "one-key"))
                          (VString "Bearer k1.bob.s1") "k1.bob.s1"
                          (Toy.decoded "k1" "bob" (Some 0%Q) "backstage")
                          eq_refl eq_refl _) Toy.issuer_url [])).
  right. exists 0%Q. split; reflexivity.
Defined.

Lemma authenticate_checks_claims_witness :
  fst (authenticate Toy.jose (Toy.runtime None) (VString "Bearer k1.dave.s1") Toy.warm)
  = inl InvalidToken.
Proof.
  eapply (proj2 (proj2 (authenticate_checks_claims Toy.jose (Toy.runtime None)
                          (VString "Bearer k1.dave.s1") "k1.dave.s1"
                          (Toy.decoded "k1" "dave" (Some 1500%Q) "other") Toy.warm
                          toy_contract eq_refl eq_refl))).
  - vm_compute. reflexivity.
  - right. left. simpl. intros [H|[]]. discriminate H.
Defined.


Lemma refreshKeyStore_fails_witness :
  refresh_fails Toy.jose
    (Toy.runtime (Some {| status := 503; statusText := "Service Unavailable";
                          body := "down" |}))
    (Error "Request failed with 503 Service Unavailable, down") Toy.fresh.
Proof.
  destruct (refreshKeyStore_fails Toy.jose
              (Toy.runtime (Some {| status := 503; statusText := "Service Unavailable";
                                    body := "down" |}))
              Toy.fresh Toy.issuer_url
              {| status := 503; statusText := "Service Unavailable"; body := "down" |}
              eq_refl eq_refl) as [Out _].
  assert (S : ~ (200 <= 503 <= 299)) by lia.
  exact (proj1 (Out S)).
Defined.

Lemma refresh_failure_frame_witness :
  fst (authenticate Toy.jose (Toy.runtime None) (VString "Bearer k1.alice.s1") Toy.fresh)
  = inl NetworkError
  /\ fst (authMiddleware Toy.jose (Toy.runtime None) (VString "Bearer k1.alice.s1")
            Toy.fresh)
     = inr (Send 401 "Unauthorized")
  /\ self (snd (authenticate Toy.jose (Toy.runtime None) (VString "Bearer k1.alice.s1")
                  Toy.fresh))
     = self Toy.fresh.
Proof.
  pose (m2 := snd (refreshKeyStore Toy.jose (Toy.runtime None)
                     (logged (KeyStoreGet (Some "k1") false) Toy.fresh))).
  assert (Rf : refreshKeyStore Toy.jose (Toy.runtime None)
                 (logged (KeyStoreGet (Some "k1") false) Toy.fresh)
               = (inl NetworkError, m2)) by reflexivity.
  destruct (refresh_failure_frame Toy.jose (Toy.runtime None)
              (VString "Bearer k1.alice.s1") "k1.alice.s1"
              (Toy.decoded "k1" "alice" (Some 1500%Q) "backstage") NetworkError
              Toy.fresh m2 eq_refl eq_refl eq_refl eq_refl Rf) as (K & U & A & W).
  rewrite A, W. repeat split; reflexivity.
Defined.

Lemma authenticate_twice_witness :
  fst (authenticate Toy.jose (Toy.runtime None) (VString "Bearer k1.alice.s1")
         (snd (authenticate Toy.jose (Toy.runtime None)
                 (VString "Bearer k1.alice.s1") Toy.warm)))
  = inr {| id := "alice"; idToken := "k1.alice.s1" |}.
Proof.
  refine (proj1 (authenticate_twice Toy.jose (Toy.runtime None)
                   (VString "Bearer k1.alice.s1")
                   {| id := "alice"; idToken := "k1.alice.s1" |} Toy.warm
                   (snd (authenticate Toy.jose (Toy.runtime None)
                           (VString "Bearer k1.alice.s1") Toy.warm))
                   toy_contract eq_refl _)).
  vm_compute. discriminate.
Defined.

(** C3 fails on the code at the header [Basic Bearer k1.alice.s1]: its
    scheme name is [Basic], so it is not of the form [Bearer <token>]
    and gives no bearer token, yet the pattern, which is not anchored at
    the start of the header, finds the [Bearer] further on, the token
    after it is taken, and the call returns an identity instead of
    failing with [MissingToken]. *)
Lemma wrong_scheme_accepted :
  bearer_form (VString "Basic Bearer k1.alice.s1") = false
  /\ scheme_name "Basic Bearer k1.alice.s1" = "Basic"
  /\ getBearerToken (VString "Basic Bearer k1.alice.s1") = Some "k1.alice.s1"
  /\ fst (authenticate Toy.jose (Toy.runtime None)
            (VString "Basic Bearer k1.alice.s1") Toy.warm)
     = inr {| id := "alice"; idToken := "k1.alice.s1" |}
  /\ fst (authenticate Toy.jose (Toy.runtime None)
            (VString "Basic Bearer k1.alice.s1") Toy.warm)
     <> inl MissingToken.
Proof.
  repeat split; try reflexivity. vm_compute. discriminate.
Qed.




(** ** More on the bearer pattern *)

Module TokenFacts.
Import Pattern PatternFacts.

Lemma literal_ci_bearer b :
  literal_ci "Bearer" b = Some EmptyString <-> spelled_bearer b.
Proof.
  unfold spelled_bearer. split.
  - destruct b as [|c1 [|c2 [|c3 [|c4 [|c5 [|c6 [|c7 b]]]]]]];
      cbn [literal_ci];
      repeat match goal with
             | |- context [if ?x then _ else _] => destruct x eqn:?
             end; try discriminate.
    intros _. exists c1, c2, c3, c4, c5, c6.
    split; [reflexivity|].
    repeat match goal with
           | H : eqb_ci "B" _ = true |- _ => apply eqb_ci_B in H
           | H : eqb_ci "e" _ = true |- _ => apply eqb_ci_e in H
           | H : eqb_ci "a" _ = true |- _ => apply eqb_ci_a in H
           | H : eqb_ci "r" _ = true |- _ => apply eqb_ci_r in H
           end.
    auto 10.
  - intros (c1 & c2 & c3 & c4 & c5 & c6 & -> & H1 & H2 & H3 & H4 & H5 & H6).
    apply eqb_ci_B in H1. apply eqb_ci_e in H2. apply eqb_ci_a in H3.
    apply eqb_ci_r in H4. apply eqb_ci_e in H5. apply eqb_ci_r in H6.
    cbn [literal_ci]. now rewrite H1, H2, H3, H4, H5, H6.
Qed.

Lemma match_here_iff s tok :
  match_here s = Some tok <->
  exists b ws rest,
    s = b ++ ws ++ tok ++ rest
    /\ literal_ci "Bearer" b = Some EmptyString
    /\ ws <> EmptyString /\ all_of is_space ws = true
    /\ tok <> EmptyString /\ all_of is_nonspace tok = true
    /\ stops is_nonspace rest.
Proof.
  unfold match_here. split.
  - intros H.
    destruct (literal_ci "Bearer" s) as [r|] eqn:Hl; [|discriminate].
    destruct (literal_ci_split _ _ _ Hl) as (b & -> & Hb).
    destruct (span is_space r) as [ws r1] eqn:Hw.
    destruct (span_spec _ _ _ _ Hw) as (-> & Aw & _).
    destruct ws as [|w ws]; [discriminate|].
    destruct (span is_nonspace r1) as [t r2] eqn:Ht.
    destruct (span_spec _ _ _ _ Ht) as (-> & At & St).
    destruct t as [|c t]; [discriminate|].
    inversion H; subst tok.
    exists b, (String w ws), r2.
    split; [reflexivity|]. split; [exact Hb|]. split; [discriminate|].
    split; [exact Aw|]. split; [discriminate|]. split; [exact At | exact St].
  - intros (b & ws & rest & -> & Hb & Hne & Aw & Tne & At & St).
    rewrite (literal_ci_app _ _ _ Hb).
    destruct tok as [|c t]; [congruence|].
    assert (Sc : stops is_space (String c t ++ rest)).
    { cbn. cbn in At. apply andb_true_iff in At. destruct At as [Hc _].
      unfold is_nonspace in Hc. now destruct (is_space c). }
    rewrite (span_app is_space ws _ Aw Sc).
    destruct ws as [|w ws]; [congruence|].
    rewrite (span_app is_nonspace (String c t) rest At St). reflexivity.
Qed.

Lemma search_here s tok : match_here s = Some tok -> search s = Some tok.
Proof.
  destruct s as [|c s]; [discriminate|].
  intros H. now rewrite search_cons, H.
Qed.

Lemma search_occurrence s tok :
  search s = Some tok ->
  exists pre suf, s = pre ++ suf /\ match_here suf = Some tok.
Proof.
  induction s as [|c s IH].
  - rewrite search_nil. discriminate.
  - rewrite search_cons.
    destruct (match_here (String c s)) as [t|] eqn:E.
    + intros H; inversion H; subst t. exists EmptyString, (String c s). auto.
    + intros H. destruct (IH H) as (pre & suf & -> & M).
      exists (String c pre), suf. auto.
Qed.

End TokenFacts.

(** X1. The token [getBearerToken] returns is taken from the header:
    the header is a string in which [Bearer], in some letter case, is
    followed by a non-empty run of white space, then by the token, which
    is not empty and holds no white space, and the token ends at the end
    of the header or at the next white space. *)
Theorem getBearerToken_shape h tok :
  getBearerToken h = Some tok ->
  exists pre b ws rest,
    h = VString (pre ++ b ++ ws ++ tok ++ rest)
    /\ spelled_bearer b
    /\ ws <> EmptyString /\ all_of Pattern.is_space ws = true
    /\ tok <> EmptyString /\ all_of Pattern.is_nonspace tok = true
    /\ stops Pattern.is_nonspace rest.
Proof.
  unfold getBearerToken. destruct h as [| | | |s| |]; try discriminate.
  cbn [is_string]. intros H.
  destruct (TokenFacts.search_occurrence _ _ H) as (pre & suf & -> & M).
  apply TokenFacts.match_here_iff in M.
  destruct M as (b & ws & rest & -> & Hb & R).
  exists pre, b, ws, rest. split; [reflexivity|].
  split; [now apply TokenFacts.literal_ci_bearer | exact R].
Qed.

(** X2. A header that begins with [Bearer] in any letter case, goes on
    with one or more white-space code units and then with a token
    without white space, gives back exactly that token; what follows the
    token after further white space is ignored. *)
Theorem getBearerToken_well_formed b ws tok rest :
  spelled_bearer b ->
  ws <> EmptyString -> all_of Pattern.is_space ws = true ->
  tok <> EmptyString -> all_of Pattern.is_nonspace tok = true ->
  stops Pattern.is_nonspace rest ->
  getBearerToken (VString (b ++ ws ++ tok ++ rest)) = Some tok.
Proof.
  intros Hb Wn Wa Tn Ta St. cbn [getBearerToken is_string].
  apply TokenFacts.search_here, TokenFacts.match_here_iff.
  exists b, ws, rest. split; [reflexivity|].
  split; [now apply TokenFacts.literal_ci_bearer | auto].
Qed.

(** ** More on the refresh and on the calls made *)

Section Calls.

Context (J : Jose) (R : Runtime).

(** What a refresh adds to the trace, and what it leaves in the object. *)
Lemma refreshKeyStore_events (m m' : Machine J) r :
  refreshKeyStore J R m = (r, m') ->
  let ms := Date_now R (trace m) in
  issuer (self m') = issuer (self m)
  /\ ((r = inl DiscoveryError /\ self m' = self m
       /\ trace m' = GetBaseUrl "auth" None :: DateNow ms :: trace m)
      \/ exists base answer,
           trace m' = Fetch (base ++ "/.well-known/jwks.json") answer
                        :: GetBaseUrl "auth" (Some base) :: DateNow ms :: trace m
           /\ match r with
              | inl _ => self m' = self m
              | inr _ =>
                  exists response publicKeys items,
                    answer = Some response
                    /\ response_ok response = true
                    /\ JSON_parse R (body response) = Some publicKeys
                    /\ keys_array publicKeys = Some items
                    /\ map_asKey J items = Some (keyStore (self m'))
                    /\ keyStoreUpdated (self m') = seconds ms
              end).
Proof.
  rewrite refreshKeyStore_run. cbv zeta. rewrite listPublicKeys_run. cbv zeta.
  cbn [trace logged].
  destruct (discovery_getBaseUrl R _ "auth") as [base|].
  2:{ intros H; inversion H; subst. cbn. auto. }
  destruct (fetch R _ _) as [resp|].
  2:{ intros H; inversion H; subst. cbn. split; [reflexivity|].
      right. exists base, None. auto. }
  destruct (response_ok resp) eqn:O.
  2:{ intros H; inversion H; subst. cbn. split; [reflexivity|].
      right. exists base, (Some resp). auto. }
  destruct (JSON_parse R (body resp)) as [v|] eqn:P.
  2:{ intros H; inversion H; subst. cbn. split; [reflexivity|].
      right. exists base, (Some resp). auto. }
  destruct (keys_array v) as [items|] eqn:K.
  2:{ intros H; inversion H; subst. cbn. split; [reflexivity|].
      right. exists base, (Some resp). auto. }
  destruct (map_asKey J items) as [keys|] eqn:A.
  2:{ intros H; inversion H; subst. cbn. split; [reflexivity|].
      right. exists base, (Some resp). auto. }
  intros H; inversion H; subst. cbn. split; [reflexivity|].
  right. exists base, (Some resp). split; [reflexivity|].
  exists resp, v, items. auto 10.
Qed.

(** X3. With an answer from discovery and from the issuer whose status
    is in 200..299 and whose body is JSON with a [keys] array of records
    that [JWK.asKey] all accepts, the refresh returns: the store is the
    list of the converted keys, [keyStoreUpdated] is the clock reading
    taken before the request, in seconds, and the issuer is untouched. *)
Theorem refreshKeyStore_succeeds (m : Machine J) base response publicKeys items keys :
  let ms := Date_now R (trace m) in
  let t1 := DateNow ms :: trace m in
  let url := base ++ "/.well-known/jwks.json" in
  discovery_getBaseUrl R t1 "auth" = Some base ->
  fetch R (GetBaseUrl "auth" (Some base) :: t1) url = Some response ->
  200 <= status response <= 299 ->
  JSON_parse R (body response) = Some publicKeys ->
  keys_array publicKeys = Some items ->
  map_asKey J items = Some keys ->
  refreshKeyStore J R m =
  (inr tt,
   {| self := {| issuer := issuer (self m);
                 keyStore := keys;
                 keyStoreUpdated := seconds ms |};
      trace := Fetch url (Some response) :: GetBaseUrl "auth" (Some base) :: t1 |}).
Proof.
  intros ms t1 url Hd Hf St P K A.
  rewrite refreshKeyStore_run. cbv zeta. rewrite listPublicKeys_run. cbv zeta.
  cbn [trace logged]. fold ms. fold t1. rewrite Hd. fold url. rewrite Hf.
  assert (O : response_ok response = true).
  { unfold response_ok. apply andb_true_iff. split; apply Z.leb_le; lia. }
  rewrite O, P, K, A. reflexivity.
Qed.

(** X4. [publicKeys.keys.map(key => JWK.asKey(key))] returns exactly
    when [JWK.asKey] accepts every record of the array, and what it
    returns then holds, record by record and in the order of the array,
    the key [JWK.asKey] made of the record. *)
Theorem map_asKey_all items keys :
  map_asKey J items = Some keys
  <-> Forall2 (fun item key => JWK_asKey J item = Some key) items keys.
Proof.
  revert keys. induction items as [|item items IH]; cbn [map_asKey]; intros keys.
  - split.
    + intros H; inversion H. constructor.
    + intros H; inversion H. reflexivity.
  - split.
    + destruct (JWK_asKey J item) as [key|] eqn:A; [|discriminate].
      destruct (map_asKey J items) as [keys'|]; [|discriminate].
      intros H; inversion H; subst keys. constructor; [exact A|].
      now apply IH.
    + intros H. inversion H as [|item' key items' keys' A F]; subst.
      rewrite A. apply IH in F. now rewrite F.
Qed.

(** The ways through [authenticate]: without a refresh, or around one. *)
Lemma authenticate_path h (m : Machine J) :
  let m' := snd (authenticate J R h m) in
  (self m' = self m
   /\ (trace m' = trace m
       \/ exists k,
            trace m' = KeyStoreGet k false :: KeyStoreGet k false :: trace m
            \/ exists c,
                 trace m' = DateNow c :: KeyStoreGet k true :: KeyStoreGet k true
                              :: trace m))
  \/ exists k r m2,
       refreshKeyStore J R (logged (KeyStoreGet k false) m) = (r, m2)
       /\ self m' = self m2
       /\ match r with
          | inl _ => trace m' = trace m2
          | inr _ =>
              trace m' = KeyStoreGet k false :: trace m2
              \/ exists c, trace m' = DateNow c :: KeyStoreGet k true :: trace m2
          end.
Proof.
  cbv zeta. destruct (getBearerToken h) as [tok|] eqn:H.
  2:{ rewrite (authenticate_no_token _ _ _ _ H). left. auto. }
  rewrite (authenticate_token _ _ _ _ _ H).
  destruct (JWT_decode J tok) as [d|] eqn:D.
  2:{ rewrite (getKey_undecodable _ _ _ _ D). left. auto. }
  destruct (KeyStore_get J (keyStore (self m)) (kid (header d))) as [key|] eqn:G.
  { rewrite (getKey_hit _ _ _ _ _ _ D G). left. split; [reflexivity|].
    right. exists (kid (header d)). right. eexists. reflexivity. }
  destruct (issued_after (payload d) (keyStoreUpdated (self m))) eqn:I.
  2:{ rewrite (getKey_miss _ _ _ _ _ D G I). left. split; [reflexivity|].
      right. exists (kid (header d)). left. reflexivity. }
  rewrite (getKey_refresh _ _ _ _ _ D G I). cbv zeta. right.
  destruct (refreshKeyStore J R _) as [[e|[]] m2] eqn:Rf.
  - exists (kid (header d)), (inl e), m2. auto.
  - exists (kid (header d)), (inr tt), m2. split; [exact Rf|].
    destruct (KeyStore_get J (keyStore (self m2)) (kid (header d))) as [key|].
    + split; [reflexivity|]. right. eexists. reflexivity.
    + split; [reflexivity|]. left. reflexivity.
Qed.

(** The calls one [authenticate] adds to the trace. *)
Lemma authenticate_new_calls h (m : Machine J) :
  exists new,
    trace (snd (authenticate J R h m)) = (new ++ trace m)%list
    /\ (new = []
        \/ (exists k, new = [KeyStoreGet k false; KeyStoreGet k false])
        \/ (exists k c, new = [DateNow c; KeyStoreGet k true; KeyStoreGet k true])
        \/ exists k ms post,
             (post = [] \/ post = [KeyStoreGet k false]
              \/ exists c, post = [DateNow c; KeyStoreGet k true])
             /\ (new = (post ++ [GetBaseUrl "auth" None; DateNow ms;
                                 KeyStoreGet k false])%list
                 \/ exists base answer,
                      new = (post ++ [Fetch (base ++ "/.well-known/jwks.json") answer;
                                      GetBaseUrl "auth" (Some base); DateNow ms;
                                      KeyStoreGet k false])%list)).
Proof.
  destruct (authenticate_path h m) as [(_ & T)|(k & r & m2 & Rf & _ & T)].
  - destruct T as [T|(k & [T|(c & T)])]; rewrite T.
    + exists []. auto.
    + exists [KeyStoreGet k false; KeyStoreGet k false]. split; [reflexivity|].
      right. left. eauto.
    + exists [DateNow c; KeyStoreGet k true; KeyStoreGet k true].
      split; [reflexivity|]. right. right. left. eauto.
  - destruct (refreshKeyStore_events _ _ _ Rf) as (_ & Ev). cbn [trace logged] in Ev.
    set (ms := Date_now R (KeyStoreGet k false :: trace m)) in *.
    assert (P : exists post,
               trace (snd (authenticate J R h m)) = (post ++ trace m2)%list
               /\ (post = [] \/ post = [KeyStoreGet k false]
                   \/ exists c, post = [DateNow c; KeyStoreGet k true])).
    { destruct r as [e|u].
      - exists []. auto.
      - destruct T as [T|(c & T)]; rewrite T.
        + exists [KeyStoreGet k false]. auto.
        + exists [DateNow c; KeyStoreGet k true]. split; [reflexivity|]. eauto. }
    destruct P as (post & -> & Post).
    destruct Ev as [(_ & _ & ->)|(base & answer & -> & _)].
    + exists (post ++ [GetBaseUrl "auth" None; DateNow ms; KeyStoreGet k false])%list.
      split; [now rewrite <- app_assoc|].
      right. right. right. exists k, ms, post. auto.
    + exists (post ++ [Fetch (base ++ "/.well-known/jwks.json") answer;
                       GetBaseUrl "auth" (Some base); DateNow ms;
                       KeyStoreGet k false])%list.
      split; [now rewrite <- app_assoc|].
      right. right. right. exists k, ms, post. split; [exact Post|]. right. eauto.
Qed.

(** X5. One [authenticate] only adds to the history of calls, and adds
    at most one HTTP request, at most one call to discovery and at most
    two key-store lookups. *)
Theorem authenticate_bounded_calls h (m : Machine J) :
  exists new,
    trace (snd (authenticate J R h m)) = (new ++ trace m)%list
    /\ (fetch_calls new <= 1)%nat
    /\ (discovery_calls new <= 1)%nat
    /\ (lookups new <= 2)%nat.
Proof.
  destruct (authenticate_new_calls h m) as (new & T & Shape).
  exists new. split; [exact T|].
  unfold fetch_calls, discovery_calls, lookups.
  destruct Shape as [->|[(k & ->)|[(k & c & ->)|(k & ms & post & Post & New)]]];
    cbn; try lia.
  destruct New as [->|(base & answer & ->)];
    destruct Post as [->|[->|(c & ->)]]; cbn; lia.
Qed.

(** X6. The only address [authenticate] ever requests is the
    [/.well-known/jwks.json] of the base address that discovery gave for
    [auth] in the same call. *)
Theorem authenticate_requests_jwks h (m : Machine J) new url answer :
  trace (snd (authenticate J R h m)) = (new ++ trace m)%list ->
  In (Fetch url answer) new ->
  exists base,
    url = base ++ "/.well-known/jwks.json"
    /\ In (GetBaseUrl "auth" (Some base)) new.
Proof.
  destruct (authenticate_new_calls h m) as (new' & T & Shape).
  intros T'. rewrite T in T'. apply app_inv_tail in T'. subst new'.
  destruct Shape as [->|[(k & ->)|[(k & c & ->)|(k & ms & post & Post & New)]]].
  - intros [].
  - cbn. intuition discriminate.
  - cbn. intuition discriminate.
  - destruct New as [->|(base & answer' & ->)];
      destruct Post as [->|[->|(c & ->)]]; cbn;
      intros I; repeat (destruct I as [I|I]; try discriminate I); try contradiction;
      inversion I; subst; exists base; split; auto 10.
Qed.

(** X7. Whatever the header, [authenticate] never changes the issuer,
    and it leaves the key store and [keyStoreUpdated] alone unless one
    request of this call was answered with a good status and a body
    whose [keys] were all converted: then the store is exactly that
    converted key set and [keyStoreUpdated] is a clock reading of this
    call, in seconds. *)
Theorem authenticate_store_snapshot h (m : Machine J) :
  let m' := snd (authenticate J R h m) in
  issuer (self m') = issuer (self m)
  /\ (self m' = self m
      \/ exists url response publicKeys items ms new,
           trace m' = (new ++ trace m)%list
           /\ In (Fetch url (Some response)) new
           /\ In (DateNow ms) new
           /\ response_ok response = true
           /\ JSON_parse R (body response) = Some publicKeys
           /\ keys_array publicKeys = Some items
           /\ map_asKey J items = Some (keyStore (self m'))
           /\ keyStoreUpdated (self m') = seconds ms).
Proof.
  cbv zeta.
  destruct (authenticate_path h m) as [(S & _)|(k & r & m2 & Rf & S & T)].
  { rewrite S. auto. }
  destruct (refreshKeyStore_events _ _ _ Rf) as (Is & Ev).
  cbn [trace self logged] in Is, Ev. rewrite S. split; [exact Is|].
  destruct Ev as [(-> & S2 & _)|(base & answer & T2 & Out)]; [now left|].
  destruct r as [e|u]; [now left|]. right.
  destruct Out as (resp & v & items & -> & O & P & K & A & U).
  set (ms := Date_now R (KeyStoreGet k false :: trace m)) in *.
  set (url := base ++ "/.well-known/jwks.json") in *.
  assert (N : exists post,
             trace (snd (authenticate J R h m))
             = (post ++ [Fetch url (Some resp); GetBaseUrl "auth" (Some base);
                         DateNow ms; KeyStoreGet k false] ++ trace m)%list).
  { destruct T as [T|(c & T)]; rewrite T, T2.
    - exists [KeyStoreGet k false]. reflexivity.
    - exists [DateNow c; KeyStoreGet k true]. reflexivity. }
  destruct N as (post & N). rewrite app_assoc in N.
  exists url, resp, v, items, ms. eexists. split; [exact N|].
  split; [apply in_or_app; right; cbn; auto|].
  split; [apply in_or_app; right; cbn; auto|]. auto.
Qed.

(** X8. The middleware lets a request through only with the identity of
    a verified token: the token is the one of the header, the key is one
    of the keys in the store when the call ends, namely the one the
    store returns for the [kid] of the token (it carries that [kid] when
    the token has one), verification of the token with that key and the
    options of the client succeeded at the last clock reading of the
    call, and the identity carries the subject of the token and the
    token itself. *)
Theorem authMiddleware_next h user (m m' : Machine J) :
  JoseContract J ->
  authMiddleware J R h m = (inr (Next user), m') ->
  exists tok d key clock,
    getBearerToken h = Some tok
    /\ JWT_decode J tok = Some d
    /\ user = {| id := sub (payload d); idToken := tok |}
    /\ In key (keyStore (self m'))
    /\ KeyStore_get J (keyStore (self m')) (kid (header d)) = Some key
    /\ (forall k, kid (header d) = Some k -> key_kid J key = k)
    /\ JWT_IdToken_verify J tok key (verify_options J (self m')) clock
       = Some (payload d)
    /\ trace m' = DateNow clock :: tl (trace m').
Proof.
  intros C. unfold authMiddleware.
  destruct (authenticate J R h m) as [[e|u] m1] eqn:A; [discriminate|].
  intros E; inversion E; subst u m1; clear E.
  destruct (getBearerToken h) as [tok|] eqn:H.
  2:{ rewrite (authenticate_no_token _ _ _ _ H) in A. discriminate. }
  rewrite (authenticate_token _ _ _ _ _ H) in A.
  destruct (getKey J R tok m) as [[e|[key|]] m1] eqn:K; try discriminate.
  destruct (getKey_returns _ _ _ _ _ _ K) as (d & D & G & _).
  unfold verification in A.
  destruct (JWT_IdToken_verify J tok key _ _) as [p|] eqn:V; [|discriminate].
  inversion A; subst user m'; clear A.
  destruct (verify_decoded J C _ _ _ _ _ V) as (d1 & D1 & P1 & _).
  rewrite D in D1. inversion D1; subst d1. subst p.
  exists tok, d, key, (Date_now R (trace m1)).
  split; [reflexivity|]. split; [exact D|]. split; [reflexivity|].
  pose proof G as F. unfold KeyStore_get in F. apply find_some in F.
  destruct F as [I E].
  split; [exact I|]. split; [exact G|].
  split; [|split; [exact V | reflexivity]].
  intros k Hk. rewrite Hk in E. now apply String.eqb_eq in E.
Qed.

(** X9. From construction to identity: on a client that was just
    constructed, a token with a positive [iat] whose key the issuer
    publishes is authenticated in one call, which reads the clock, asks
    discovery, fetches the keys, installs them, finds the key and
    verifies; the calls are made in this order. *)
Theorem authenticate_cold_start issuer0 t h tok d i base response publicKeys
    items keys key p :
  let m := {| self := new_IdentityClient J issuer0; trace := t |} in
  let k := kid (header d) in
  let ms := Date_now R (KeyStoreGet k false :: t) in
  let t1 := DateNow ms :: KeyStoreGet k false :: t in
  let url := base ++ "/.well-known/jwks.json" in
  let t2 := KeyStoreGet k true :: Fetch url (Some response)
              :: GetBaseUrl "auth" (Some base) :: t1 in
  getBearerToken h = Some tok ->
  JWT_decode J tok = Some d ->
  iat (payload d) = Some i ->
  (0 < i)%Q ->
  discovery_getBaseUrl R t1 "auth" = Some base ->
  fetch R (GetBaseUrl "auth" (Some base) :: t1) url = Some response ->
  200 <= status response <= 299 ->
  JSON_parse R (body response) = Some publicKeys ->
  keys_array publicKeys = Some items ->
  map_asKey J items = Some keys ->
  KeyStore_get J keys k = Some key ->
  JWT_IdToken_verify J tok key
    {| algorithms := ["ES256"]; audience := "backstage"; issuer_opt := issuer0 |}
    (Date_now R t2) = Some p ->
  authenticate J R h m =
  (inr {| id := sub p; idToken := tok |},
   {| self := {| issuer := issuer0; keyStore := keys; keyStoreUpdated := seconds ms |};
      trace := DateNow (Date_now R t2) :: t2 |}).
Proof.
  intros m k ms t1 url t2 H D I Pos Hd Hf St P K A G V.
  subst m k ms t1 url t2.
  set (m := {| self := new_IdentityClient J issuer0; trace := t |}) in *.
  assert (Miss : KeyStore_get J (keyStore (self m)) (kid (header d)) = None)
    by reflexivity.
  assert (Ia : issued_after (payload d) (keyStoreUpdated (self m)) = true).
  { apply issued_after_true. exists i. split; [exact I|]. split; [|exact Pos].
    intros E. rewrite E in Pos. now apply (Qlt_irrefl 0). }
  rewrite (authenticate_token _ _ _ _ _ H), (getKey_refresh _ _ _ _ _ D Miss Ia).
  cbv zeta.
  rewrite (refreshKeyStore_succeeds (logged (KeyStoreGet (kid (header d)) false) m)
             base response publicKeys items keys Hd Hf St P K A).
  cbn [self keyStore]. rewrite G. unfold verification, verify_options.
  cbn [self trace logged issuer is_some new_IdentityClient m].
  rewrite V. reflexivity.
Qed.

(** X10. A refresh that failed is not remembered: the next call with
    the same header finds the object as it was, so it asks discovery
    again. *)
Theorem failed_refresh_is_retried h tok d e (m m2 : Machine J) :
  getBearerToken h = Some tok ->
  JWT_decode J tok = Some d ->
  KeyStore_get J (keyStore (self m)) (kid (header d)) = None ->
  issued_after (payload d) (keyStoreUpdated (self m)) = true ->
  refreshKeyStore J R (logged (KeyStoreGet (kid (header d)) false) m) = (inl e, m2) ->
  authenticate J R h m = (inl e, m2)
  /\ discovery_calls (trace (snd (authenticate J R h m2)))
     = S (discovery_calls (trace m2)).
Proof.
  intros H D G I Rf. split.
  { rewrite (authenticate_token _ _ _ _ _ H), (getKey_refresh _ _ _ _ _ D G I).
    cbv zeta. now rewrite Rf. }
  apply refreshKeyStore_throws in Rf. cbn [self logged] in Rf.
  rewrite <- Rf in G, I.
  rewrite (authenticate_token _ _ _ _ _ H), (getKey_refresh _ _ _ _ _ D G I).
  cbv zeta.
  destruct (refreshKeyStore J R _) as [r m4] eqn:Rf2.
  destruct (refreshKeyStore_events _ _ _ Rf2) as (_ & Ev). cbn [trace logged] in Ev.
  assert (Dc : discovery_calls (trace m4) = S (discovery_calls (trace m2))).
  { destruct Ev as [(_ & _ & ->)|(base & answer & -> & _)]; reflexivity. }
  destruct r as [e'|[]]; [exact Dc|].
  destruct (KeyStore_get J (keyStore (self m4)) (kid (header d))); exact Dc.
Qed.

(** X11. [listPublicKeys] returns exactly when discovery answers, the
    request is answered with a status in 200..299 and the body is JSON;
    what it returns is the parsed body as it is, whatever its shape, and
    it changes no field of the client. *)
Theorem listPublicKeys_returns (m m' : Machine J) v :
  listPublicKeys J R m = (inr v, m') <->
  exists base response,
    discovery_getBaseUrl R (trace m) "auth" = Some base
    /\ fetch R (GetBaseUrl "auth" (Some base) :: trace m)
         (base ++ "/.well-known/jwks.json") = Some response
    /\ response_ok response = true
    /\ JSON_parse R (body response) = Some v
    /\ m' = {| self := self m;
               trace := Fetch (base ++ "/.well-known/jwks.json") (Some response)
                          :: GetBaseUrl "auth" (Some base) :: trace m |}.
Proof.
  rewrite listPublicKeys_run. cbv zeta. cbn [trace logged]. split.
  - destruct (discovery_getBaseUrl R (trace m) "auth") as [base|]; [|discriminate].
    destruct (fetch R _ _) as [resp|] eqn:F; [|discriminate].
    destruct (response_ok resp) eqn:O; [|discriminate].
    destruct (JSON_parse R (body resp)) as [v'|] eqn:P; [|discriminate].
    intros H; inversion H; subst. exists base, resp. auto.
  - intros (base & resp & -> & -> & -> & -> & ->). reflexivity.
Qed.

(** X12. When discovery does not answer during the refresh that
    [authenticate] starts, the call ends with the error of discovery
    after one lookup, one clock reading and the call to discovery: no
    request is made and nothing is assigned. *)
Theorem authenticate_discovery_rejects h tok d (m : Machine J) :
  let k := kid (header d) in
  let t1 := DateNow (Date_now R (KeyStoreGet k false :: trace m))
              :: KeyStoreGet k false :: trace m in
  getBearerToken h = Some tok ->
  JWT_decode J tok = Some d ->
  KeyStore_get J (keyStore (self m)) k = None ->
  issued_after (payload d) (keyStoreUpdated (self m)) = true ->
  discovery_getBaseUrl R t1 "auth" = None ->
  authenticate J R h m =
  (inl DiscoveryError, {| self := self m; trace := GetBaseUrl "auth" None :: t1 |}).
Proof.
  intros k t1 H D G I Hd. subst k t1.
  rewrite (authenticate_token _ _ _ _ _ H), (getKey_refresh _ _ _ _ _ D G I).
  cbv zeta. rewrite refreshKeyStore_run. cbv zeta. rewrite listPublicKeys_run.
  cbv zeta. cbn [trace logged]. rewrite Hd. reflexivity.
Qed.

End Calls.

(** ** More runs in the small world *)

Lemma getBearerToken_shape_witness :
  exists pre b ws rest,
    VString "Token x, bearer  k1.alice.s1 y"
    = VString (pre ++ b ++ ws ++ "k1.alice.s1" ++ rest)
    /\ spelled_bearer b
    /\ ws <> EmptyString /\ all_of Pattern.is_space ws = true
    /\ "k1.alice.s1" <> EmptyString
    /\ all_of Pattern.is_nonspace "k1.alice.s1" = true
    /\ stops Pattern.is_nonspace rest.
Proof.
  exact (getBearerToken_shape (VString "Token x, bearer  k1.alice.s1 y")
           "k1.alice.s1" eq_refl).
Defined.

Lemma getBearerToken_well_formed_witness :
  getBearerToken (VString "BeArEr  k1.alice.s1 trailer") = Some "k1.alice.s1".
Proof.
  apply (getBearerToken_well_formed "BeArEr" "  " "k1.alice.s1" " trailer").
  - exists "B"%char, "e"%char, "A"%char, "r"%char, "E"%char, "r"%char.
    split; [reflexivity|]. repeat split; auto.
  - discriminate.
  - reflexivity.
  - discriminate.
  - reflexivity.
  - reflexivity.
Defined.

Lemma refreshKeyStore_succeeds_witness :
  fst (refreshKeyStore Toy.jose (Toy.runtime (Toy.ok_with "one-key")) Toy.fresh)
  = inr tt
  /\ keyStore (self (snd (refreshKeyStore Toy.jose
                            (Toy.runtime (Toy.ok_with "one-key")) Toy.fresh)))
     = [("k1", "s1")].
Proof.
  assert (St : 200 <= 200 <= 299) by lia.
  rewrite (refreshKeyStore_succeeds Toy.jose (Toy.runtime (Toy.ok_with "one-key"))
             Toy.fresh Toy.issuer_url
             {| status := 200; statusText := "OK"; body := "one-key" |}
             (VObject [("keys", VArray [Toy.jwk "k1" "s1"])])
             [Toy.jwk "k1" "s1"] [("k1", "s1")]
             eq_refl eq_refl St eq_refl eq_refl eq_refl).
  split; reflexivity.
Defined.

Lemma authenticate_requests_jwks_witness :
  exists base,
    "http://localhost:7000/api/auth/.well-known/jwks.json"
    = base ++ "/.well-known/jwks.json"
    /\ In (GetBaseUrl "auth" (Some base))
         [ DateNow 1005000;
           KeyStoreGet (Some "k1") true;
           Fetch "http://localhost:7000/api/auth/.well-known/jwks.json"
             (Toy.ok_with "one-key");
           GetBaseUrl "auth" (Some "http://localhost:7000/api/auth");
           DateNow 1001000;
           KeyStoreGet (Some "k1") false ].
Proof.
  apply (authenticate_requests_jwks Toy.jose (Toy.runtime (Toy.ok_with "one-key"))
           (VString "Bearer k1.alice.s1") Toy.fresh _ _ (Toy.ok_with "one-key")).
  - reflexivity.
  - cbn. auto.
Defined.

Lemma authMiddleware_next_witness :
  exists tok d key clock,
    getBearerToken (VString "Bearer k1.alice.s1") = Some tok
    /\ JWT_decode Toy.jose tok = Some d
    /\ {| id := "alice"; idToken := "k1.alice.s1" |}
       = {| id := sub (payload d); idToken := tok |}
    /\ In key
         (keyStore (self (snd (authMiddleware Toy.jose (Toy.runtime None)
                                 (VString "Bearer k1.alice.s1") Toy.warm))))
    /\ KeyStore_get Toy.jose
         (keyStore (self (snd (authMiddleware Toy.jose (Toy.runtime None)
                                 (VString "Bearer k1.alice.s1") Toy.warm))))
         (kid (header d)) = Some key
    /\ (forall k, kid (header d) = Some k -> key_kid Toy.jose key = k)
    /\ JWT_IdToken_verify Toy.jose tok key
         (verify_options Toy.jose
            (self (snd (authMiddleware Toy.jose (Toy.runtime None)
                          (VString "Bearer k1.alice.s1") Toy.warm))))
         clock = Some (payload d)
    /\ trace (snd (authMiddleware Toy.jose (Toy.runtime None)
                     (VString "Bearer k1.alice.s1") Toy.warm))
       = DateNow clock
           :: tl (trace (snd (authMiddleware Toy.jose (Toy.runtime None)
                                (VString "Bearer k1.alice.s1") Toy.warm))).
Proof.
  exact (authMiddleware_next Toy.jose (Toy.runtime None)
           (VString "Bearer k1.alice.s1")
           {| id := "alice"; idToken := "k1.alice.s1" |} Toy.warm
           (snd (authMiddleware Toy.jose (Toy.runtime None)
                   (VString "Bearer k1.alice.s1") Toy.warm))
           toy_contract eq_refl).
Defined.

Lemma authenticate_cold_start_witness :
  fst (authenticate Toy.jose (Toy.runtime (Toy.ok_with "one-key"))
         (VString "Bearer k1.alice.s1") Toy.fresh)
  = inr {| id := "alice"; idToken := "k1.alice.s1" |}.
Proof.
  assert (St : 200 <= 200 <= 299) by lia.
  assert (Pos : (0 < 1500)%Q) by reflexivity.
  unfold Toy.fresh.
  rewrite (authenticate_cold_start Toy.jose (Toy.runtime (Toy.ok_with "one-key"))
             Toy.issuer_url [] (VString "Bearer k1.alice.s1") "k1.alice.s1"
             (Toy.decoded "k1" "alice" (Some 1500%Q) "backstage") 1500%Q
             Toy.issuer_url
             {| status := 200; statusText := "OK"; body := "one-key" |}
             (VObject [("keys", VArray [Toy.jwk "k1" "s1"])])
             [Toy.jwk "k1" "s1"] [("k1", "s1")] ("k1", "s1")
             (Toy.claims_of "alice" (Some 1500%Q) "backstage")
             eq_refl eq_refl eq_refl Pos eq_refl eq_refl St eq_refl eq_refl eq_refl
             eq_refl eq_refl).
  reflexivity.
Defined.

Lemma failed_refresh_is_retried_witness :
  let h := VString "Bearer k1.alice.s1" in
  let m2 := snd (authenticate Toy.jose (Toy.runtime None) h Toy.fresh) in
  discovery_calls (trace m2) = 1%nat
  /\ discovery_calls (trace (snd (authenticate Toy.jose (Toy.runtime None) h m2)))
     = 2%nat.
Proof.
  intros h m2.
  assert (Rf : refreshKeyStore Toy.jose (Toy.runtime None)
                 (logged (KeyStoreGet (Some "k1") false) Toy.fresh)
               = (inl NetworkError, m2)) by reflexivity.
  destruct (failed_refresh_is_retried Toy.jose (Toy.runtime None) h "k1.alice.s1"
              (Toy.decoded "k1" "alice" (Some 1500%Q) "backstage") NetworkError
              Toy.fresh m2 eq_refl eq_refl eq_refl eq_refl Rf) as (_ & Again).
  split; [reflexivity | exact Again].
Defined.

Lemma authenticate_keeps_nonneg_witness :
  (0 <= keyStoreUpdated
          (self (snd (authenticate Toy.jose (Toy.runtime (Toy.ok_with "one-key"))
                        (VString "Bearer k1.alice.s1") Toy.fresh))))%Q.
Proof.
  apply (authenticate_keeps_nonneg Toy.jose (Toy.runtime (Toy.ok_with "one-key"))
           (VString "Bearer k1.alice.s1") Toy.fresh).
  - intros t. change (0 <= 1000000 + 1000 * Z.of_nat (length t)). lia.
  - unfold Qle. simpl. lia.
Defined.

Lemma authenticate_discovery_rejects_witness :
  authenticate Toy.jose Toy.offline (VString "Bearer k1.alice.s1") Toy.fresh
  = (inl DiscoveryError,
     {| self := self Toy.fresh;
        trace := [GetBaseUrl "auth" None; DateNow 1001000; KeyStoreGet (Some "k1") false] |}).
Proof.
  exact (authenticate_discovery_rejects Toy.jose Toy.offline
           (VString "Bearer k1.alice.s1") "k1.alice.s1"
           (Toy.decoded "k1" "alice" (Some 1500%Q) "backstage") Toy.fresh
           eq_refl eq_refl eq_refl eq_refl eq_refl).
Defined.
